(** * A browser calculator: expression handling, display buffer and history

    Shallow embedding of [script.js].  The functions of the script keep their
    names.  The host facilities the script calls (string methods, regular
    expressions, numbers, [Function]) are modelled in the first modules; the
    script itself is in [Module Sanitizer] (lines 50-65) and
    [Module Calculator] (lines 67-259). *)

From Stdlib Require Import List Ascii ZArith Lia Bool Arith.
From Stdlib Require String.
From Stdlib Require Import SpecFloat.
Import ListNotations.
Import String.StringSyntax.
Open Scope string_scope.
Open Scope list_scope.

(** A JavaScript string is the list of its code units.  The model keeps the
    code units below 256: of the characters the script produces or lets
    through its checks only the white space above U+00FF is left out.  String
    literals are read through the coercion. *)
Definition str := list ascii.
Coercion String.list_ascii_of_string : String.string >-> list.

(** ** Characters and the character classes of the script's regular expressions *)

Module Chars.

Definition code (c : ascii) : nat := nat_of_ascii c.

(** [\d], that is [0-9] *)
Definition isDigit (c : ascii) : bool :=
  (48 <=? code c)%nat && (code c <=? 57)%nat.

(** the class [[+\-*/]] *)
Definition isOperator (c : ascii) : bool :=
  (c =? "+")%char || (c =? "-")%char || (c =? "*")%char || (c =? "/")%char.

(** the class [[+*/]] of line 59 *)
Definition isLeadingOperator (c : ascii) : bool :=
  (c =? "+")%char || (c =? "*")%char || (c =? "/")%char.

(** the class [[\+\-\*\/%]] of line 103 *)
Definition isSeparator (c : ascii) : bool :=
  isOperator c || (c =? "%")%char.

(** Line terminators: LF and CR (U+2028 and U+2029 are above 255). *)
Definition isLineTerminator (c : ascii) : bool :=
  (code c =? 10)%nat || (code c =? 13)%nat.

(** [\s], also what [trim] removes: TAB, LF, VT, FF, CR, SP, NBSP. *)
Definition isSpace (c : ascii) : bool :=
  ((9 <=? code c)%nat && (code c <=? 13)%nat) || (code c =? 32)%nat || (code c =? 160)%nat.

(** the class [[0-9+\-*/().\s%]] of line 74 *)
Definition isAllowed (c : ascii) : bool :=
  isDigit c || isOperator c || (c =? "(")%char || (c =? ")")%char
  || (c =? ".")%char || isSpace c || (c =? "%")%char.

Definition digitValue (c : ascii) : Z := Z.of_nat (code c - 48).

Definition digitChar (d : Z) : ascii := ascii_of_nat (48 + Z.to_nat d).

End Chars.

(** ** String methods *)

Module Str.
Import Chars.

(** [a === b] on strings *)
Fixpoint eqb (a b : str) : bool :=
  match a, b with
  | [], [] => true
  | x :: a', y :: b' => (x =? y)%char && eqb a' b'
  | _, _ => false
  end.

Fixpoint startsWith (p s : str) : bool :=
  match p, s with
  | [], _ => true
  | x :: p', y :: s' => (x =? y)%char && startsWith p' s'
  | _ :: _, [] => false
  end.

(** [s.includes(needle)]: [needle] occurs in [s] as a substring *)
Fixpoint includes (s needle : str) : bool :=
  startsWith needle s
  || match s with
     | [] => false
     | _ :: t => includes t needle
     end.

Fixpoint dropWhile (p : ascii -> bool) (s : str) : str :=
  match s with
  | [] => []
  | c :: t => if p c then dropWhile p t else s
  end.

Fixpoint takeWhile (p : ascii -> bool) (s : str) : str :=
  match s with
  | [] => []
  | c :: t => if p c then c :: takeWhile p t else []
  end.

Definition trimStart (s : str) : str := dropWhile isSpace s.
Definition trimEnd (s : str) : str := rev (dropWhile isSpace (rev s)).

(** [s.trim()] *)
Definition trim (s : str) : str := trimEnd (trimStart s).

(** [s.slice(1)] *)
Definition slice1 (s : str) : str := tl s.

(** [s.slice(0, -1)] *)
Definition sliceInit (s : str) : str := removelast s.

(** [s.slice(-1)]: the last character as a string, empty for the empty string *)
Definition sliceLast (s : str) : str := skipn (length s - 1) s.

(** [m[m.length - 1]] for a non-empty [m] *)
Definition lastChar (m : str) : str := sliceLast m.

(** [s.split(/[\+\-\*\/%]/)]: the pieces between separator characters; at
    least one piece, the empty string splits into one empty piece. *)
Fixpoint split (s : str) : list str :=
  match s with
  | [] => [[]]
  | c :: t =>
      if isSeparator c then [] :: split t
      else match split t with
           | tok :: rest => (c :: tok) :: rest
           | [] => [[c]]
           end
  end.

(** [s.replace(re, f)] for a global regular expression that never matches
    the empty string.  [re s] is the match of the expression anchored at the
    start of [s], as the matched text and what follows it.  The search goes
    left to right; after a match it resumes behind the match, after a failure
    one character further.  [fuel] bounds the number of steps; [length s]
    steps always suffice (lemma [replaceAll_fuel]). *)
Fixpoint replaceAll (re : str -> option (str * str)) (f : str -> str)
         (fuel : nat) (s : str) : str :=
  match fuel with
  | O => s
  | S n =>
      match s with
      | [] => []
      | c :: t =>
          match re s with
          | Some (m, rest) => f m ++ replaceAll re f n rest
          | None => c :: replaceAll re f n t
          end
      end
  end.

Definition replace (re : str -> option (str * str)) (f : str -> str) (s : str) : str :=
  replaceAll re f (length s) s.

End Str.

(** ** The regular expressions of the script *)

Module Regex.
Import Chars Str.

(** [/(\d+(\.\d+)?)%/] anchored at the start of [s]: a maximal run of digits,
    optionally a dot and a maximal run of digits, then a percent sign.
    Backtracking to a shorter run cannot succeed since the character after a
    shortened run is a digit.  The result is group 1 and the text behind the
    percent sign. *)
Definition percent (s : str) : option (str * str) :=
  let d1 := takeWhile isDigit s in
  let r1 := dropWhile isDigit s in
  match d1 with
  | [] => None
  | _ :: _ =>
      match r1 with
      | "%"%char :: rest => Some (d1, rest)
      | "."%char :: r2 =>
          let d2 := takeWhile isDigit r2 in
          match d2, dropWhile isDigit r2 with
          | _ :: _, "%"%char :: rest => Some (d1 ++ "." ++ d2, rest)
          | _, _ => None
          end
      | _ => None
      end
  end.

(** [/([+\-*/]){2,}/] anchored at the start of [s]: a maximal run of at least
    two operator characters. *)
Definition operatorRun (s : str) : option (str * str) :=
  let run := takeWhile isOperator s in
  if (2 <=? length run)%nat then Some (run, dropWhile isOperator s) else None.

Definition startsWithOperator (s : str) : bool :=
  match s with
  | c :: _ => isOperator c
  | [] => false
  end.

Fixpoint endsWithOperator (s : str) : bool :=
  match s with
  | [] => false
  | [c] => isOperator c
  | _ :: t => endsWithOperator t
  end.

(** [/^[+*/]/.test(s)] *)
Definition startsWithLeadingOperator (s : str) : bool :=
  match s with
  | c :: _ => isLeadingOperator c
  | [] => false
  end.

(** [/^[0-9+\-*/().\s%]+$/.test(s)] *)
Definition onlyAllowed (s : str) : bool :=
  match s with
  | [] => false
  | _ :: _ => forallb isAllowed s
  end.

End Regex.

Module Sanitizer.
Import Chars Str Regex.

(** [normalizePercent], lines 50-53 *)
Definition normalizePercent (expr : str) : str :=
  replace percent (fun g1 => "(" ++ g1 ++ "/100)") expr.

(** line 59 *)
Definition stripLeading (expr : str) : str :=
  if startsWithLeadingOperator expr then slice1 expr else expr.

(** line 62 *)
Definition collapseOperators (expr : str) : str :=
  replace operatorRun (fun m => lastChar m) expr.

(** The replacement of line 62 by structural recursion: an operator is
    dropped when an operator follows it (lemma [collapseOperators_structural]). *)
Fixpoint dropFollowedOperators (s : str) : str :=
  match s with
  | [] => []
  | c :: t =>
      if isOperator c && startsWithOperator t then dropFollowedOperators t
      else c :: dropFollowedOperators t
  end.

(** [sanitizeExpression], lines 56-65 *)
Definition sanitizeExpression (expr : str) : str :=
  let expr := trim expr in
  let expr := stripLeading expr in
  let expr := collapseOperators expr in
  expr.

End Sanitizer.

(** ** Numbers

    A JavaScript number is an IEEE 754 binary64 value: [spec_float] of the
    standard library at precision 53 and maximal exponent 1024, with one NaN. *)

Module Number.
Import Chars Str.
Open Scope Z_scope.

Definition number := spec_float.

Definition prec : Z := 53.
Definition emax : Z := 1024.

Definition NaN : number := S754_nan.
Definition Infinity : number := S754_infinity false.

Definition add : number -> number -> number := SFadd prec emax.
Definition sub : number -> number -> number := SFsub prec emax.
Definition mul : number -> number -> number := SFmul prec emax.
Definition div : number -> number -> number := SFdiv prec emax.
Definition neg : number -> number := SFopp.

(** [n % d]: the remainder of the truncating division, exact, with the sign
    of the dividend. *)
Definition rem (n d : number) : number :=
  match n, d with
  | S754_nan, _ | _, S754_nan => NaN
  | S754_infinity _, _ => NaN
  | _, S754_zero _ => NaN
  | _, S754_infinity _ => n
  | S754_zero _, _ => n
  | S754_finite sn mn en, S754_finite _ md ed =>
      let e0 := Z.min en ed in
      let N := Zpos mn * 2 ^ (en - e0) in
      let D := Zpos md * 2 ^ (ed - e0) in
      let R := N mod D in
      binary_normalize prec emax (if sn then - R else R) e0 sn
  end.

(** The number nearest to [m * 10 ^ e10] (ties to even), with sign [sg]:
    the value of a decimal literal and of the text [parseFloat] reads. *)
Definition ofDecimal (sg : bool) (m : Z) (e10 : Z) : number :=
  match m with
  | Z0 => S754_zero sg
  | Zpos p =>
      if 0 <=? e10
      then binary_normalize prec emax ((if sg then - m else m) * 10 ^ e10) 0 sg
      else div (S754_finite sg p 0) (S754_finite false (Z.to_pos (10 ^ (- e10))) 0)
  | Zneg _ => NaN
  end.

Definition ofZ (n : Z) : number := ofDecimal (n <? 0) (Z.abs n) 0.

(** [Number.isInteger(x)] *)
Definition isInteger (x : number) : bool :=
  match x with
  | S754_zero _ => true
  | S754_finite _ m e => (0 <=? e) || (Zpos m mod 2 ^ (- e) =? 0)
  | _ => false
  end.

(** Decimal digits of a natural number, most significant first. *)
Fixpoint digitsOf (fuel : nat) (n : Z) (acc : str) : str :=
  match fuel with
  | O => acc
  | S k =>
      let acc' := digitChar (n mod 10) :: acc in
      if n <? 10 then acc' else digitsOf k (n / 10) acc'
  end.

Definition decimal (n : Z) : str := digitsOf (S (Z.to_nat (Z.log2 n))) n [].

Definition digitStep (acc : Z) (c : ascii) : Z := 10 * acc + digitValue c.

(** The number a text of digits writes. *)
Definition digitsValue (ds : str) : Z := fold_left digitStep ds 0.

Definition zeros (k : Z) : str := repeat "0"%char (Z.to_nat k).

(** [m * 2 ^ e < 10 ^ k], decided on integers *)
Definition ltPow10 (m : positive) (e k : Z) : bool :=
  Zpos m * 2 ^ Z.max e 0 * 10 ^ Z.max (- k) 0 <? 10 ^ Z.max k 0 * 2 ^ Z.max (- e) 0.

Fixpoint findExponent (fuel : nat) (m : positive) (e k : Z) : Z :=
  match fuel with
  | O => k
  | S f => if ltPow10 m e k then k else findExponent f m e (k + 1)
  end.

(** The least [k] with [m * 2 ^ e < 10 ^ k].  With [b] the bit length of
    [m * 2 ^ e], the search starts at a [k] that is too small, since
    [0.30102 < log10 2 < 0.30104], and goes up. *)
Definition decimalExponent (m : positive) (e : Z) : Z :=
  let b := Zpos (digits2_pos m) + e - 1 in
  let k0 := if 0 <=? b then b * 30102 / 100000 else b * 30104 / 100000 in
  findExponent 8 m e k0.

(** [floor (m * 2 ^ e / 10 ^ s)] *)
Definition scaledFloor (m : positive) (e s : Z) : Z :=
  (Zpos m * 2 ^ Z.max e 0 * 10 ^ Z.max (- s) 0) / (2 ^ Z.max (- e) 0 * 10 ^ Z.max s 0).

(** [2 * m * 2 ^ e] compared with [c * 10 ^ s] *)
Definition compareTwice (m : positive) (e c s : Z) : comparison :=
  (2 * Zpos m * 2 ^ Z.max e 0 * 10 ^ Z.max (- s) 0
   ?= c * 10 ^ Z.max s 0 * 2 ^ Z.max (- e) 0).

Definition roundTrips (x : number) (n s : Z) : bool :=
  SFeqb (ofDecimal false n s) x.

(** Number::toString, the digits: the least [k] and an [n] of [k] digits
    such that [n * 10 ^ (E - k)] rounds to [x]; among several [n] the one
    nearest to [x], the even one on a tie.  The result is [(n, k, E)].  A
    binary64 value needs at most 17 digits, so the fuel of [toString] is
    never used up. *)
Fixpoint shortest (fuel : nat) (x : number) (m : positive) (e E k : Z) : Z * Z * Z :=
  match fuel with
  | O => (0, 0, 0)
  | S f =>
      let s := E - k in
      let lo := scaledFloor m e s in
      let hi := lo + 1 in
      let pick (n : Z) := if n =? 10 ^ k then (10 ^ (k - 1), k, E + 1) else (n, k, E) in
      match roundTrips x lo s, roundTrips x hi s with
      | true, true =>
          match compareTwice m e (lo + hi) s with
          | Lt => pick lo
          | Gt => pick hi
          | Eq => if Z.even lo then pick lo else pick hi
          end
      | true, false => pick lo
      | false, true => pick hi
      | false, false => shortest f x m e E (k + 1)
      end
  end.

(** Number::toString(x) in radix 10 *)
Definition toString (x : number) : str :=
  match x with
  | S754_nan => "NaN"
  | S754_zero _ => "0"
  | S754_infinity s => if s then "-Infinity" else "Infinity"
  | S754_finite s m e =>
      let '(n, k, E) := shortest 20 (S754_finite false m e) m e (decimalExponent m e) 1 in
      let ds := decimal n in
      let body : str :=
        if (k <=? E) && (E <=? 21) then ds ++ zeros (E - k)
        else if (0 <? E) && (E <=? 21)
        then firstn (Z.to_nat E) ds ++ "." ++ skipn (Z.to_nat E) ds
        else if (-6 <? E) && (E <=? 0) then "0." ++ zeros (- E) ++ ds
        else
          let ex := E - 1 in
          let sg : str := if ex <? 0 then "-" else "+" in
          if k =? 1 then ds ++ "e" ++ sg ++ decimal (Z.abs ex)
          else firstn 1 ds ++ "." ++ skipn 1 ds ++ "e" ++ sg ++ decimal (Z.abs ex) in
      (if s then "-" else "") ++ body
  end.

(** The integer [n] for which [n / 10 ^ f] is nearest to [m * 2 ^ e], the
    larger one on a tie. *)
Definition nearestScaled (m : positive) (e : Z) (f : nat) : Z :=
  let num := Zpos m * 2 ^ Z.max e 0 * 10 ^ Z.of_nat f in
  let den := 2 ^ Z.max (- e) 0 in
  (2 * num + den) / (2 * den).

(** [n / 10 ^ f] written with [f] fraction digits. *)
Definition fixedPoint (n : Z) (f : nat) : str :=
  let ds := decimal n in
  let ds := repeat "0"%char (S f - length ds) ++ ds in
  let k := length ds in
  firstn (k - f) ds ++ (if (f =? 0)%nat then "" else "." ++ skipn (k - f) ds).

(** [x.toFixed(f)] for [0 <= f <= 100] *)
Definition toFixed (x : number) (f : nat) : str :=
  match x with
  | S754_nan | S754_infinity _ => toString x
  | S754_zero _ => fixedPoint 0 f
  | S754_finite s m e =>
      if ltPow10 m e 21
      then (if s then "-" else "") ++ fixedPoint (nearestScaled m e f) f
      else toString x
  end.

Definition splitSign (s : str) : bool * str :=
  match s with
  | "-"%char :: t => (true, t)
  | "+"%char :: t => (false, t)
  | _ => (false, s)
  end.

(** The fraction digits behind a dot, and what follows them. *)
Definition fractionPart (r : str) : str * str :=
  match r with
  | "."%char :: t => (takeWhile isDigit t, dropWhile isDigit t)
  | _ => ([], r)
  end.

(** The value of an exponent part at the start of [r], zero without one. *)
Definition exponentPart (r : str) : Z :=
  match r with
  | c :: t =>
      if (c =? "e")%char || (c =? "E")%char then
        let '(sg, u) := splitSign t in
        let v := digitsValue (takeWhile isDigit u) in
        if sg then - v else v
      else 0
  | [] => 0
  end.

(** [parseFloat(s)]: the longest prefix of the trimmed text that is a decimal
    literal, rounded; NaN when there is none. *)
Definition parseFloat (s : str) : number :=
  let '(sg, u) := splitSign (trimStart s) in
  if startsWith "Infinity" u then S754_infinity sg
  else
    let ip := takeWhile isDigit u in
    let '(fp, r) := fractionPart (dropWhile isDigit u) in
    match ip ++ fp with
    | [] => NaN
    | ds => ofDecimal sg (digitsValue ds) (exponentPart r - Z.of_nat (length fp))
    end.

End Number.

(** ** Values and completions *)

Module Value.
Import Number.

(** What the evaluated function body can return over the accepted alphabet:
    a number, a string, or a regular-expression object. *)
Inductive value :=
| VNumber (x : number)
| VString (s : str)
| VRegExp (source : str).

Inductive exn :=
| Error (message : str)
| SyntaxError
| TypeError
| RangeError.

Inductive completion :=
| Return (v : value)
| Throw (e : exn).

(** [String(v)] *)
Definition ToString (v : value) : str :=
  match v with
  | VNumber x => toString x
  | VString s => s
  | VRegExp source => "/" ++ source ++ "/"
  end.

End Value.

(** ** The arithmetic fragment of the host's [Function]

    [Function(body)()] belongs to the host.  The script is parameterised by
    it; this module describes the host on the bodies the script builds whose
    expression is plain arithmetic in strict mode: decimal literals, unary and
    binary [+ - * / %], parentheses and calls, blanks between tokens.  On
    anything else (a line terminator, a regular-expression literal or comment,
    the tokens [++ -- **], a lone dot) [strictArith] gives no answer.  A
    literal is rounded to the nearest number; limits of an implementation
    (nesting depth) are not part of the description. *)

Module Engine.
Import Chars Str Number Value.

Inductive binop := Add | Sub | Mul | Div | Rem.

Inductive term :=
| Lit (x : number)
| Plus (a : term)
| Minus (a : term)
| Bin (op : binop) (a b : term)
| Call (callee : term)
| CallWith (callee argument : term).

Inductive parsed (A : Type) :=
| Ok (a : A) (rest : str)
| Bad
| Outside.
Arguments Ok {A} a rest.
Arguments Bad {A}.
Arguments Outside {A}.

(** White space other than line terminators. *)
Definition isBlank (c : ascii) : bool := isSpace c && negb (isLineTerminator c).

Definition skipBlank (s : str) : str := dropWhile isBlank s.

Definition nextIs (c : ascii) (s : str) : bool :=
  match s with
  | d :: _ => (c =? d)%char
  | [] => false
  end.

(** A token that cannot follow an operand: a literal or a closing
    parenthesis is a syntax error, the rest is outside the fragment. *)
Definition unexpected {A : Type} (s : str) : parsed A :=
  match s with
  | [] => Bad
  | c :: _ => if isDigit c || (c =? ")")%char then Bad else Outside
  end.

(** A decimal literal at the start of [s], which begins with a digit or with
    a dot and a digit.  In strict mode a literal with a leading zero and
    further digits is an error. *)
Definition literal (s : str) : parsed term :=
  let ip := takeWhile isDigit s in
  let r := dropWhile isDigit s in
  let '(fp, r') :=
    match r with
    | "."%char :: t => (takeWhile isDigit t, dropWhile isDigit t)
    | _ => ([], r)
    end in
  match ip with
  | "0"%char :: _ :: _ => Bad
  | _ => Ok (Lit (ofDecimal false (digitsValue (ip ++ fp)) (- Z.of_nat (length fp)))) r'
  end.

Definition startsLiteral (s : str) : bool :=
  match s with
  | c :: t =>
      isDigit c
      || ((c =? ".")%char && match t with d :: _ => isDigit d | [] => false end)
  | [] => false
  end.

Definition closing {A : Type} (s : str) (k : str -> parsed A) : parsed A :=
  match skipBlank s with
  | ")"%char :: u => k u
  | [] => Bad
  | c :: _ => if isDigit c then Bad else Outside
  end.

Fixpoint parseAdditive (fuel : nat) (s : str) : parsed term :=
  match fuel with
  | O => Outside
  | S f =>
      match parseMultiplicative f s with
      | Ok l r => additiveRest f l r
      | Bad => Bad
      | Outside => Outside
      end
  end
with additiveRest (fuel : nat) (l : term) (s : str) : parsed term :=
  match fuel with
  | O => Outside
  | S f =>
      match skipBlank s with
      | "+"%char :: t =>
          if nextIs "+" t then Outside
          else match parseMultiplicative f t with
               | Ok r u => additiveRest f (Bin Add l r) u
               | Bad => Bad
               | Outside => Outside
               end
      | "-"%char :: t =>
          if nextIs "-" t then Outside
          else match parseMultiplicative f t with
               | Ok r u => additiveRest f (Bin Sub l r) u
               | Bad => Bad
               | Outside => Outside
               end
      | _ => Ok l s
      end
  end
with parseMultiplicative (fuel : nat) (s : str) : parsed term :=
  match fuel with
  | O => Outside
  | S f =>
      match parseUnary f s with
      | Ok l r => multiplicativeRest f l r
      | Bad => Bad
      | Outside => Outside
      end
  end
with multiplicativeRest (fuel : nat) (l : term) (s : str) : parsed term :=
  match fuel with
  | O => Outside
  | S f =>
      match skipBlank s with
      | "*"%char :: t =>
          if nextIs "*" t then Outside
          else match parseUnary f t with
               | Ok r u => multiplicativeRest f (Bin Mul l r) u
               | Bad => Bad
               | Outside => Outside
               end
      | "/"%char :: t =>
          if nextIs "/" t || nextIs "*" t then Outside
          else match parseUnary f t with
               | Ok r u => multiplicativeRest f (Bin Div l r) u
               | Bad => Bad
               | Outside => Outside
               end
      | "%"%char :: t =>
          match parseUnary f t with
          | Ok r u => multiplicativeRest f (Bin Rem l r) u
          | Bad => Bad
          | Outside => Outside
          end
      | _ => Ok l s
      end
  end
with parseUnary (fuel : nat) (s : str) : parsed term :=
  match fuel with
  | O => Outside
  | S f =>
      match skipBlank s with
      | "+"%char :: t =>
          if nextIs "+" t then Outside
          else match parseUnary f t with
               | Ok a u => Ok (Plus a) u
               | Bad => Bad
               | Outside => Outside
               end
      | "-"%char :: t =>
          if nextIs "-" t then Outside
          else match parseUnary f t with
               | Ok a u => Ok (Minus a) u
               | Bad => Bad
               | Outside => Outside
               end
      | "("%char :: t =>
          match parseAdditive f t with
          | Ok a u => closing u (fun v => callRest f a v)
          | Bad => Bad
          | Outside => Outside
          end
      | ")"%char :: _ | "*"%char :: _ | "%"%char :: _ | [] => Bad
      | c :: t =>
          if startsLiteral (c :: t)
          then match literal (c :: t) with
               | Ok a u => callRest f a u
               | Bad => Bad
               | Outside => Outside
               end
          else Outside
      end
  end
with callRest (fuel : nat) (callee : term) (s : str) : parsed term :=
  match fuel with
  | O => Outside
  | S f =>
      match skipBlank s with
      | "("%char :: t =>
          match skipBlank t with
          | ")"%char :: u => callRest f (Call callee) u
          | _ =>
              match parseAdditive f t with
              | Ok a u => closing u (fun v => callRest f (CallWith callee a) v)
              | Bad => Bad
              | Outside => Outside
              end
          end
      | _ => Ok callee s
      end
  end.

(** An expression that fills the whole text. *)
Definition parseExpression (s : str) : parsed term :=
  match parseAdditive (8 * S (length s)) s with
  | Ok a r =>
      match skipBlank r with
      | [] => Ok a []
      | u => unexpected u
      end
  | Bad => Bad
  | Outside => Outside
  end.

Definition apply (op : binop) : number -> number -> number :=
  match op with
  | Add => add
  | Sub => sub
  | Mul => mul
  | Div => div
  | Rem => rem
  end.

(** Evaluation; every operand is a number.  A call evaluates the callee and
    the argument and then fails, since a number is not callable. *)
Fixpoint evaluate (a : term) : exn + number :=
  match a with
  | Lit x => inr x
  | Plus a => evaluate a
  | Minus a =>
      match evaluate a with
      | inr x => inr (neg x)
      | inl e => inl e
      end
  | Bin op a b =>
      match evaluate a, evaluate b with
      | inr x, inr y => inr (apply op x y)
      | inl e, _ => inl e
      | _, inl e => inl e
      end
  | Call callee =>
      match evaluate callee with
      | inl e => inl e
      | inr _ => inl TypeError
      end
  | CallWith callee b =>
      match evaluate callee, evaluate b with
      | inr _, inr _ => inl TypeError
      | inl e, _ => inl e
      | _, inl e => inl e
      end
  end.

Definition dquote : str := ["034"%char].

(** The template of line 79 *)
Definition functionBody (expr : str) : str :=
  dquote ++ "use strict" ++ dquote ++ "; return (" ++ expr ++ ");".

Fixpoint stripPrefix (p s : str) : option str :=
  match p, s with
  | [], _ => Some s
  | x :: p', y :: s' => if (x =? y)%char then stripPrefix p' s' else None
  | _ :: _, [] => None
  end.

Definition stripSuffix (p s : str) : option str :=
  match stripPrefix (rev p) (rev s) with
  | Some r => Some (rev r)
  | None => None
  end.

Definition inFragment (c : ascii) : bool := isAllowed c && negb (isLineTerminator c).

(** The host on a body of the script's shape. *)
Definition strictArith (body : str) : option completion :=
  match stripPrefix (dquote ++ "use strict" ++ dquote ++ "; return ") body with
  | Some r =>
      match stripSuffix ";" r with
      | Some e =>
          if forallb inFragment e then
            match parseExpression e with
            | Ok a _ =>
                Some match evaluate a with
                     | inr x => Return (VNumber x)
                     | inl err => Throw err
                     end
            | Bad => Some (Throw SyntaxError)
            | Outside => None
            end
          else None
      | None => None
      end
  | None => None
  end.

(** A host agrees with the fragment when it answers as the fragment
    prescribes wherever the fragment answers. *)
Definition Arithmetic (host : str -> completion) : Prop :=
  forall body c, strictArith body = Some c -> host body = c.

(** A host that throws outside the fragment. *)
Definition arithOnly (body : str) : completion :=
  match strictArith body with
  | Some c => c
  | None => Throw SyntaxError
  end.

End Engine.

(** ** The script

    The page state the script reads and writes: the text of the display
    element and the [history] array.  Rendering, the theme and the copy of the
    history in local storage do not feed back into either and are left out;
    [saveHistory] and [renderHistory] are taken to complete normally. *)

Module Calculator.
Import Chars Str Regex Sanitizer Number Value Engine.

Record Entry := { expr : str; result : str; time : str }.

Record State := { display : str; history : list Entry }.

Definition setDisplay (v : str) (st : State) : State :=
  {| display := v; history := history st |}.

Definition setHistory (h : list Entry) (st : State) : State :=
  {| display := display st; history := h |}.

(** The condition of line 85: the display shows the outcome of a failed or
    non-finite evaluation. *)
Definition isSentinel (d : str) : bool :=
  eqb d "Error" || eqb d "Infinity" || eqb d "NaN".

(** [appendValue], lines 83-111 *)
Definition appendValue (value : str) (st : State) : State :=
  let st := if isSentinel (display st) then setDisplay "" st else st in
  let lastChar := sliceLast (display st) in
  let appendDigits (st : State) : State :=
    if eqb value "." then
      let tokens := split (display st) in
      let lastToken := last tokens [] in
      if includes lastToken "." then st
      else
        let st := if eqb lastToken "" then setDisplay (display st ++ "0") st else st in
        setDisplay (display st ++ value) st
    else setDisplay (display st ++ value) st in
  if includes "+-*/" value then
    if eqb (display st) "" && negb (eqb value "-") then st
    else if includes "+-*/" lastChar
         then setDisplay (sliceInit (display st) ++ value) st
         else appendDigits st
  else appendDigits st.

(** [clearDisplay], lines 113-115 *)
Definition clearDisplay (st : State) : State := setDisplay "" st.

(** [deleteLast], lines 117-123 *)
Definition deleteLast (st : State) : State :=
  if eqb (display st) "Error" then setDisplay "" st
  else setDisplay (sliceInit (display st)) st.

(** [addToHistory], lines 143-153; [now] is the clock reading. *)
Definition addToHistory (now : str) (expression : str) (result : value) (st : State) : State :=
  let entry := {| expr := expression; result := ToString result; time := now |} in
  let h := entry :: history st in
  let h := if (200 <? length h)%nat then removelast h else h in
  setHistory h st.

(** A run of successful evaluations: [addToHistory] on each expression and
    result in turn. *)
Definition recordAll (now : str) (items : list (str * value)) (st : State) : State :=
  fold_left (fun st it => addToHistory now (fst it) (snd it) st) items st.

(** [clearHistory], lines 200-204 *)
Definition clearHistory (st : State) : State := setHistory [] st.

Definition samples : list (str * str) :=
  [ ("5+3" : str, "8" : str);
    ("12/4" : str, "3" : str);
    ("7*6" : str, "42" : str);
    ("50%" : str, "0.5" : str);
    ("200-10%" : str, "180" : str) ].

(** [addSampleData], lines 206-219; [now i] is the clock reading at sample [i]. *)
Definition addSampleData (now : nat -> str) (st : State) : State :=
  let unshift (h : list Entry) (s : nat * (str * str)) : list Entry :=
    {| expr := fst (snd s); result := snd (snd s); time := now (fst s) |} :: h in
  setHistory (fold_left unshift (combine (seq 0 (length samples)) samples) (history st)) st.

Section Script.

(** The host's [Function(body)()]. *)
Variable Function_ : str -> completion.

(** [safeEval], lines 67-80 *)
Definition safeEval (expression : str) : completion :=
  let expr := normalizePercent expression in
  let expr := sanitizeExpression expr in
  if negb (onlyAllowed expression) then Throw (Error "Invalid characters")
  else Function_ (functionBody expr).

(** The rounding of lines 132-134 *)
Definition rounded (result : value) : value :=
  match result with
  | VNumber x => if negb (isInteger x) then VNumber (parseFloat (toFixed x 10)) else result
  | _ => result
  end.

(** [calculateResult], lines 126-141 *)
Definition calculateResult (now : str) (st : State) : State :=
  let expr := trim (display st) in
  if eqb expr "" then st
  else
    match safeEval expr with
    | Return result =>
        let rounded := rounded result in
        let st := addToHistory now expr rounded st in
        setDisplay (ToString rounded) st
    | Throw _ => setDisplay "Error" st
    end.

(** [onKeyDown], lines 241-259, on the key's name *)
Definition onKeyDown (now : str) (key : str) (st : State) : State :=
  if match key with [c] => isDigit c | _ => false end then appendValue key st
  else if includes "+-*/" key then appendValue key st
  else if eqb key "Enter" then calculateResult now st
  else if eqb key "Backspace" then deleteLast st
  else if eqb key "Escape" then clearDisplay st
  else if eqb key "." then appendValue "." st
  else if eqb key "%" then appendValue "%" st
  else st.

End Script.

End Calculator.

(** ** Shapes of a text *)

Module Shape.
Import Chars Str.

(** Some operator character is followed by an operator character. *)
Fixpoint adjacentOperators (s : str) : bool :=
  match s with
  | a :: (b :: _) as t => (isOperator a && isOperator b) || adjacentOperators t
  | _ => false
  end.

(** Some digit is followed by a percent sign. *)
Fixpoint digitBeforePercent (s : str) : bool :=
  match s with
  | a :: (b :: _) as t => (isDigit a && (b =? "%")%char) || digitBeforePercent t
  | _ => false
  end.

(** The number of dots of a text. *)
Definition dots (s : str) : nat := length (filter (fun c => (c =? ".")%char) s).

(** Every numeric segment, in the sense of line 103, has at most one dot. *)
Definition singleDots (d : str) : bool :=
  forallb (fun tok => (dots tok <=? 1)%nat) (split d).

End Shape.

(** ** Events of the page *)

Module Page.
Import Str Value Calculator.

(** The click handler of a history row, lines 192-194. *)
Definition restoreEntry (item : Entry) (st : State) : State :=
  setDisplay (expr item) st.

(** A sequence of key presses, each with the clock reading at its time. *)
Definition pressAll (host : str -> completion) (events : list (str * str)) (st : State) : State :=
  fold_left (fun st ev => onKeyDown host (fst ev) (snd ev) st) events st.

End Page.

(** ** The theme, lines 30-47 and 222-238

    The class lists of the body and of the icon, and local storage.  The
    elements are taken to exist and [setItem] to complete normally. *)

Module Theme.
Import Str.

(** A [classList]: its tokens in order, each once. *)
Definition classList := list str.

Definition contains (l : classList) (c : str) : bool := existsb (eqb c) l.

Definition add (c : str) (l : classList) : classList :=
  if contains l c then l else l ++ [c].

Definition remove (c : str) (l : classList) : classList :=
  filter (fun x => negb (eqb x c)) l.

(** [localStorage]: the item of each key, if any. *)
Definition storage := str -> option str.

Definition getItem (k : str) (s : storage) : option str := s k.

Definition setItem (k v : str) (s : storage) : storage :=
  fun k' => if eqb k' k then Some v else s k'.

Definition STORAGE_KEY : str := "modernCalculatorHistory".
Definition THEME_KEY : str := "modernCalculatorTheme".

Record Document := { body : classList; themeIcon : classList; localStorage : storage }.

(** [saveTheme], lines 30-32 *)
Definition saveTheme (isDark : bool) (doc : Document) : Document :=
  {| body := body doc;
     themeIcon := themeIcon doc;
     localStorage := setItem THEME_KEY (if isDark then "dark" else "light") (localStorage doc) |}.

(** The two branches shared by [loadTheme] and [toggleTheme]. *)
Definition showDark (doc : Document) : Document :=
  {| body := add "dark-theme" (remove "light-theme" (body doc));
     themeIcon := add "fa-sun" (remove "fa-moon" (themeIcon doc));
     localStorage := localStorage doc |}.

Definition showLight (doc : Document) : Document :=
  {| body := add "light-theme" (remove "dark-theme" (body doc));
     themeIcon := add "fa-moon" (remove "fa-sun" (themeIcon doc));
     localStorage := localStorage doc |}.

(** [loadTheme], lines 34-47 *)
Definition loadTheme (doc : Document) : Document :=
  let t := getItem THEME_KEY (localStorage doc) in
  if match t with Some v => eqb v "dark" | None => false end
  then showDark doc
  else showLight doc.

(** [toggleTheme], lines 222-238 *)
Definition toggleTheme (doc : Document) : Document :=
  let isDark := contains (body doc) "light-theme" in
  if isDark then saveTheme true (showDark doc)
  else saveTheme false (showLight doc).

End Theme.

Import Chars Str Regex Sanitizer.

Import Number Value Engine Calculator.

(** * Properties *)

(** ** Characters and strings *)

Ltac by_cases_on_char c :=
  destruct c as [[] [] [] [] [] [] [] []]; try reflexivity; try discriminate.

Lemma digit_not_operator (c : ascii) : isDigit c = true -> isOperator c = false.
Proof. by_cases_on_char c. Qed.

Lemma digit_not_separator (c : ascii) : isDigit c = true -> isSeparator c = false.
Proof. by_cases_on_char c. Qed.

Lemma digit_not_dot (c : ascii) : isDigit c = true -> (c =? ".")%char = false.
Proof. by_cases_on_char c. Qed.

Lemma operator_not_space (c : ascii) : isOperator c = true -> isSpace c = false.
Proof. by_cases_on_char c. Qed.

Lemma leading_is_operator (c : ascii) : isLeadingOperator c = true -> isOperator c = true.
Proof. by_cases_on_char c. Qed.

Lemma eqb_eq (a b : str) : Str.eqb a b = true <-> a = b.
Proof.
  revert b; induction a as [|x a IH]; intros [|y b]; simpl; split; intro H;
    try reflexivity; try discriminate.
  - apply andb_true_iff in H as [H1 H2].
    apply Ascii.eqb_eq in H1. apply IH in H2. now subst.
  - injection H as -> ->. rewrite Ascii.eqb_refl. simpl. now apply IH.
Qed.

Lemma eqb_refl (a : str) : Str.eqb a a = true.
Proof. now apply eqb_eq. Qed.

Lemma eqb_neq (a b : str) : Str.eqb a b = false <-> a <> b.
Proof.
  split.
  - intros H E. apply eqb_eq in E. congruence.
  - intro H. destruct (Str.eqb a b) eqn:E; [apply eqb_eq in E; contradiction | reflexivity].
Qed.

(** ** The display buffer *)

Lemma digit_key_not_operator (d : ascii) :
  isDigit d = true -> includes "+-*/" [d] = false.
Proof. by_cases_on_char d. Qed.

Lemma digit_key_not_dot (d : ascii) : isDigit d = true -> Str.eqb [d] "." = false.
Proof. by_cases_on_char d. Qed.

(** C8. A keystroke on a display that shows "Error", "Infinity" or "NaN"
    acts as on the empty display: the buffer is cleared first, then the
    keystroke is applied.  A digit typed on such a display leaves the display
    holding that digit alone. *)
Theorem appendValue_clears_sentinel (value : str) (st : State) :
  isSentinel (display st) = true ->
  appendValue value st = appendValue value (setDisplay "" st)
  /\ forall d : ascii, isDigit d = true -> display (appendValue [d] st) = [d].
Proof.
  intro H. split.
  - unfold appendValue. rewrite H. reflexivity.
  - intros d Hd. unfold appendValue. rewrite H. cbn [display setDisplay].
    rewrite (digit_key_not_operator d Hd), (digit_key_not_dot d Hd). reflexivity.
Qed.

Lemma appendValue_clears_sentinel_witness :
  appendValue "7" {| display := "Error"; history := [] |}
  = appendValue "7" (setDisplay "" {| display := "Error"; history := [] |})
  /\ forall d : ascii, isDigit d = true ->
       display (appendValue [d] {| display := "Error"; history := [] |}) = [d].
Proof.
  apply (appendValue_clears_sentinel "7" {| display := "Error"; history := [] |}).
  reflexivity.
Defined.

(** What [deleteLast] does on every display. *)
Lemma deleteLast_spec (st : State) :
  deleteLast st
  = if Str.eqb (display st) "Error" then setDisplay "" st
    else setDisplay (removelast (display st)) st.
Proof. reflexivity. Qed.

(** C9. On a display that shows "Infinity" or "NaN", both of them sentinels
    for [appendValue], [deleteLast] trims one character and leaves "Infinit"
    and "Na"; only "Error" is cleared. *)
Theorem deleteLast_trims_nonfinite_sentinels :
  isSentinel "Infinity" = true /\ isSentinel "NaN" = true
  /\ display (deleteLast {| display := "Infinity"; history := [] |}) = "Infinit"
  /\ display (deleteLast {| display := "NaN"; history := [] |}) = "Na"
  /\ display (deleteLast {| display := "Error"; history := [] |}) = "".
Proof. repeat split. Qed.

(** ** Validation and evaluation *)

Lemma onlyAllowed_false (raw : str) :
  onlyAllowed raw = false <-> raw = [] \/ Exists (fun c => isAllowed c = false) raw.
Proof.
  split.
  - destruct raw as [|c t]; [now left | intro H; right].
    unfold onlyAllowed in H. remember (c :: t) as s eqn:E. clear E.
    induction s as [|x s IH]; simpl in H; [discriminate|].
    apply andb_false_iff in H as [H|H]; [now left | right; auto].
  - intros [-> | H]; [reflexivity|].
    destruct raw as [|c t]; [inversion H|].
    unfold onlyAllowed. remember (c :: t) as s eqn:E. clear E.
    induction H as [x s H | x s H IH]; simpl; [now rewrite H|].
    rewrite IH. apply andb_false_r.
Qed.

(** On an accepted text the host decides; a host that agrees with the
    arithmetic fragment returns what the fragment prescribes. *)
Lemma safeEval_arithmetic (host : str -> completion) (raw : str) (c : completion) :
  Arithmetic host ->
  onlyAllowed raw = true ->
  strictArith (functionBody (sanitizeExpression (normalizePercent raw))) = Some c ->
  safeEval host raw = c.
Proof.
  intros Hhost Hok Hc. unfold safeEval. rewrite Hok. simpl. now apply Hhost.
Qed.

Lemma arithOnly_Arithmetic : Arithmetic arithOnly.
Proof. intros body c H. unfold arithOnly. now rewrite H. Qed.

(** C1. A text with a character outside the accepted class makes [safeEval]
    throw the error "Invalid characters", whatever the host.  The test reads
    the text as given: a text that passes it is evaluated in its normalized
    form, whether or not that form would pass. *)
Theorem safeEval_validates_raw_text (host : str -> completion) (raw : str) :
  (Exists (fun c => isAllowed c = false) raw ->
   safeEval host raw = Throw (Error "Invalid characters"))
  /\ (onlyAllowed raw = true ->
      safeEval host raw = host (functionBody (sanitizeExpression (normalizePercent raw)))).
Proof.
  split; intro H; unfold safeEval.
  - assert (E : onlyAllowed raw = false) by (apply onlyAllowed_false; now right).
    now rewrite E.
  - now rewrite H.
Qed.

Lemma safeEval_validates_raw_text_witness :
  safeEval arithOnly "abc" = Throw (Error "Invalid characters")
  /\ safeEval arithOnly "+" = arithOnly (functionBody (sanitizeExpression (normalizePercent "+"))).
Proof.
  split.
  - apply (proj1 (safeEval_validates_raw_text arithOnly "abc")).
    apply Exists_cons_hd. reflexivity.
  - apply (proj2 (safeEval_validates_raw_text arithOnly "+")). reflexivity.
Defined.

(** The text "+" passes the test although its normalized form, the empty
    text, would not; the host is then run on an empty expression. *)
Lemma validation_ignores_normalized_form (host : str -> completion) :
  onlyAllowed "+" = true
  /\ onlyAllowed (sanitizeExpression (normalizePercent "+")) = false
  /\ safeEval host "+" = host (functionBody "").
Proof. repeat split. Qed.

(** The outcome of [safeEval] is the thrown validation error exactly on the
    empty text and on texts with a character outside the class, provided the
    host throws no such error itself. *)
Lemma safeEval_invalid_iff (host : str -> completion) (raw : str) :
  (forall body, host body <> Throw (Error "Invalid characters")) ->
  safeEval host raw = Throw (Error "Invalid characters")
  <-> raw = [] \/ Exists (fun c => isAllowed c = false) raw.
Proof.
  intro Hhost. split.
  - intro H. apply onlyAllowed_false. unfold safeEval in H.
    destruct (onlyAllowed raw); [simpl in H; now apply Hhost in H | reflexivity].
  - intro H. apply onlyAllowed_false in H. unfold safeEval. now rewrite H.
Qed.

(** C5. With a host that agrees with the arithmetic fragment, the texts
    "5+3", "12/4", "7*6" and "50%" evaluate to 8, 3, 42 and 0.5. *)
Theorem safeEval_samples (host : str -> completion) :
  Arithmetic host ->
  safeEval host "5+3" = Return (VNumber (ofZ 8))
  /\ safeEval host "12/4" = Return (VNumber (ofZ 3))
  /\ safeEval host "7*6" = Return (VNumber (ofZ 42))
  /\ safeEval host "50%" = Return (VNumber (ofDecimal false 5 (-1))).
Proof.
  intro H. repeat split; apply safeEval_arithmetic; trivial; vm_compute; reflexivity.
Qed.

Lemma safeEval_samples_witness :
  safeEval arithOnly "5+3" = Return (VNumber (ofZ 8))
  /\ safeEval arithOnly "12/4" = Return (VNumber (ofZ 3))
  /\ safeEval arithOnly "7*6" = Return (VNumber (ofZ 42))
  /\ safeEval arithOnly "50%" = Return (VNumber (ofDecimal false 5 (-1))).
Proof. apply (safeEval_samples arithOnly). exact arithOnly_Arithmetic. Defined.

(** C2. With a host that agrees with the arithmetic fragment, "200-10%" is
    rewritten to "200-(10/100)" and evaluates to the number written 199.9,
    not to 180, the result the sample data lists for it. *)
Theorem safeEval_percent_of_hundred (host : str -> completion) :
  Arithmetic host ->
  sanitizeExpression (normalizePercent "200-10%") = "200-(10/100)"
  /\ safeEval host "200-10%" = Return (VNumber (ofDecimal false 1999 (-1)))
  /\ safeEval host "200-10%" <> Return (VNumber (ofZ 180))
  /\ ToString (VNumber (ofDecimal false 1999 (-1))) = "199.9"
  /\ In ("200-10%" : str, "180" : str) samples.
Proof.
  intro H.
  assert (E : safeEval host "200-10%" = Return (VNumber (ofDecimal false 1999 (-1)))).
  { apply safeEval_arithmetic; trivial; vm_compute; reflexivity. }
  split; [reflexivity|]. split; [exact E|]. split; [|split].
  - rewrite E. vm_compute. discriminate.
  - vm_compute. reflexivity.
  - simpl. tauto.
Qed.

Lemma safeEval_percent_of_hundred_witness :
  safeEval arithOnly "200-10%" <> Return (VNumber (ofZ 180)).
Proof.
  apply (safeEval_percent_of_hundred arithOnly). exact arithOnly_Arithmetic.
Defined.

(** C10. The texts "()" and "5%%" pass the character test and still fail, in
    the host.  Whenever [safeEval] fails on the trimmed display, whatever the
    failure, [calculateResult] shows "Error" and leaves the history as it was. *)
Theorem calculateResult_failure :
  (forall host : str -> completion,
      Arithmetic host ->
      onlyAllowed "()" = true /\ safeEval host "()" = Throw SyntaxError
      /\ onlyAllowed "5%%" = true /\ safeEval host "5%%" = Throw SyntaxError)
  /\ (forall (host : str -> completion) (now : str) (st : State) (e : exn),
         Str.eqb (trim (display st)) "" = false ->
         safeEval host (trim (display st)) = Throw e ->
         calculateResult host now st = {| display := "Error"; history := history st |}).
Proof.
  split.
  - intros host H. repeat split; apply safeEval_arithmetic; trivial; vm_compute; reflexivity.
  - intros host now st e Hne He. unfold calculateResult. rewrite Hne, He. reflexivity.
Qed.

Lemma calculateResult_failure_witness :
  safeEval arithOnly "()" = Throw SyntaxError
  /\ calculateResult arithOnly "t" {| display := "5%%"; history := [] |}
     = {| display := "Error"; history := [] |}.
Proof.
  split.
  - apply (proj1 calculateResult_failure arithOnly arithOnly_Arithmetic).
  - apply (proj2 calculateResult_failure arithOnly "t" {| display := "5%%"; history := [] |} SyntaxError);
      vm_compute; reflexivity.
Defined.

(** ** Normalization *)

(** C3. The sanitizer removes one leading character and collapses runs only
    afterwards, so a text that starts with two operators, or with a minus
    sign and an operator, comes out with a leading [+], [*] or [/]. *)
Theorem sanitizeExpression_leading_operator :
  sanitizeExpression "++1" = "+1"
  /\ sanitizeExpression "+/2" = "/2"
  /\ sanitizeExpression "-*3" = "*3"
  /\ sanitizeExpression (normalizePercent "++1") = "+1".
Proof. repeat split. Qed.

(** *** Runs of operators *)

Lemma dropWhile_length (p : ascii -> bool) (s : str) :
  (length (dropWhile p s) <= length s)%nat.
Proof. induction s as [|c t IH]; simpl; [lia | destruct (p c); simpl; lia]. Qed.

Lemma takeWhile_dropWhile (p : ascii -> bool) (s : str) :
  takeWhile p s ++ dropWhile p s = s.
Proof. induction s as [|c t IH]; simpl; [reflexivity | destruct (p c); simpl; congruence]. Qed.

Lemma sliceLast_last (c d0 : ascii) (s : str) : sliceLast (c :: s) = [last (c :: s) d0].
Proof.
  unfold sliceLast. cbn [length]. rewrite Nat.sub_succ, Nat.sub_0_r.
  revert c. induction s as [|d t IH]; intro c; [reflexivity|].
  cbn [length skipn]. rewrite IH. reflexivity.
Qed.

Lemma sliceLast_cons (c d : ascii) (s : str) : sliceLast (c :: d :: s) = sliceLast (d :: s).
Proof. now rewrite (sliceLast_last c c), (sliceLast_last d c). Qed.

Lemma dropFollowed_cons (c : ascii) (t : str) :
  dropFollowedOperators (c :: t)
  = if isOperator c && startsWithOperator t then dropFollowedOperators t
    else c :: dropFollowedOperators t.
Proof. reflexivity. Qed.

(** An operator run at the head of a text is replaced by its last character. *)
Lemma dropFollowed_run (c : ascii) (s : str) :
  isOperator c = true ->
  dropFollowedOperators (c :: s)
  = sliceLast (takeWhile isOperator (c :: s))
    ++ dropFollowedOperators (dropWhile isOperator (c :: s)).
Proof.
  revert c. induction s as [|d t IH]; intros c Hc.
  - simpl. rewrite Hc. reflexivity.
  - rewrite dropFollowed_cons. cbn [startsWithOperator takeWhile dropWhile].
    rewrite Hc. cbn [andb]. destruct (isOperator d) eqn:Hd.
    + rewrite (IH d Hd). cbn [takeWhile dropWhile]. rewrite Hd.
      rewrite sliceLast_cons. reflexivity.
    + reflexivity.
Qed.

Lemma operatorRun_some (c d : ascii) (t : str) :
  isOperator c = true -> isOperator d = true ->
  operatorRun (c :: d :: t)
  = Some (takeWhile isOperator (c :: d :: t), dropWhile isOperator (c :: d :: t)).
Proof. intros Hc Hd. unfold operatorRun. cbn [takeWhile]. now rewrite Hc, Hd. Qed.

Lemma operatorRun_none (c : ascii) (t : str) :
  isOperator c && startsWithOperator t = false -> operatorRun (c :: t) = None.
Proof.
  intro H. unfold operatorRun. cbn [takeWhile].
  destruct (isOperator c); [|reflexivity].
  destruct t as [|d t]; [reflexivity|]. cbn in H. cbn [takeWhile]. now rewrite H.
Qed.

Lemma collapse_fuel (n : nat) (s : str) :
  (length s <= n)%nat ->
  replaceAll operatorRun (fun m => lastChar m) n s = dropFollowedOperators s.
Proof.
  revert s. induction n as [|n IH]; intros s Hn.
  - destruct s; [reflexivity | simpl in Hn; lia].
  - destruct s as [|c t]; [reflexivity|].
    cbn [replaceAll]. rewrite dropFollowed_cons.
    destruct (isOperator c && startsWithOperator t) eqn:E.
    + apply andb_true_iff in E as [Hc Ht].
      destruct t as [|d t']; [discriminate|]. cbn in Ht.
      rewrite (operatorRun_some c d t' Hc Ht).
      assert (F : dropFollowedOperators (c :: d :: t') = dropFollowedOperators (d :: t')).
      { rewrite dropFollowed_cons. cbn [startsWithOperator]. now rewrite Hc, Ht. }
      rewrite <- F, (dropFollowed_run c (d :: t') Hc). unfold lastChar. f_equal.
      apply IH.
      pose proof (dropWhile_length isOperator t') as L.
      cbn [dropWhile]. rewrite Hc, Ht. simpl in Hn. lia.
    + rewrite (operatorRun_none c t E). f_equal. apply IH. simpl in Hn. lia.
Qed.

(** The replacement of line 62 drops every operator that an operator follows. *)
Lemma collapseOperators_structural (s : str) :
  collapseOperators s = dropFollowedOperators s.
Proof. unfold collapseOperators, replace. now apply collapse_fuel. Qed.

Lemma dropFollowed_app (pre s : str) :
  endsWithOperator pre = false ->
  dropFollowedOperators (pre ++ s) = dropFollowedOperators pre ++ dropFollowedOperators s.
Proof.
  induction pre as [|c p IH]; intro H; [reflexivity|].
  destruct p as [|d p].
  - cbn in H. cbn [app]. rewrite !dropFollowed_cons, H. reflexivity.
  - change ((c :: d :: p) ++ s) with (c :: (d :: p) ++ s).
    rewrite (dropFollowed_cons c ((d :: p) ++ s)), (dropFollowed_cons c (d :: p)).
    rewrite (IH H). cbn [app startsWithOperator].
    destruct (isOperator c && isOperator d); reflexivity.
Qed.

Lemma dropFollowed_operators (run post : str) :
  run <> [] -> forallb isOperator run = true -> startsWithOperator post = false ->
  dropFollowedOperators (run ++ post) = sliceLast run ++ dropFollowedOperators post.
Proof.
  induction run as [|c r IH]; intros Hne Hops Hpost; [contradiction|].
  cbn [forallb] in Hops. apply andb_true_iff in Hops as [Hc Hr].
  destruct r as [|d r].
  - cbn [app]. rewrite dropFollowed_cons, Hpost, andb_false_r. reflexivity.
  - change ((c :: d :: r) ++ post) with (c :: (d :: r) ++ post).
    rewrite dropFollowed_cons. cbn [app startsWithOperator].
    pose proof Hr as Hd. cbn [forallb] in Hd. apply andb_true_iff in Hd as [Hd _].
    rewrite Hc, Hd. cbn [andb].
    change (d :: r ++ post) with ((d :: r) ++ post).
    rewrite IH; trivial; [|discriminate]. now rewrite sliceLast_cons.
Qed.

Lemma dropFollowed_nonempty (c : ascii) (t : str) : dropFollowedOperators (c :: t) <> [].
Proof.
  revert c. induction t as [|d t IH]; intro c; rewrite dropFollowed_cons.
  - cbn. rewrite andb_false_r. discriminate.
  - destruct (isOperator c && startsWithOperator (d :: t)); [apply IH | discriminate].
Qed.

Lemma endsWithOperator_dropFollowed (s : str) :
  endsWithOperator (dropFollowedOperators s) = endsWithOperator s.
Proof.
  induction s as [|c t IH]; [reflexivity|].
  destruct t as [|d t].
  - cbn. rewrite andb_false_r. reflexivity.
  - rewrite dropFollowed_cons.
    destruct (isOperator c && startsWithOperator (d :: t)); [exact IH|].
    pose proof (dropFollowed_nonempty d t) as N.
    destruct (dropFollowedOperators (d :: t)) as [|x u]; [contradiction|].
    exact IH.
Qed.

Lemma startsWithOperator_dropFollowed (s : str) :
  startsWithOperator s = false -> startsWithOperator (dropFollowedOperators s) = false.
Proof.
  destruct s as [|c t]; [reflexivity|]. cbn [startsWithOperator]. intro H.
  rewrite dropFollowed_cons, H. exact H.
Qed.

(** *** Trimming *)

Lemma dropWhile_app_stop (p : ascii -> bool) (l1 l2 : str) :
  match l2 with [] => true | c :: _ => negb (p c) end = true ->
  dropWhile p (l1 ++ l2) = dropWhile p l1 ++ l2.
Proof.
  intro H. induction l1 as [|c t IH]; cbn [app dropWhile].
  - destruct l2 as [|c t]; [reflexivity|]. cbn [dropWhile].
    apply negb_true_iff in H. now rewrite H.
  - destruct (p c); [exact IH | reflexivity].
Qed.

Lemma trimStart_app (pre : str) (c : ascii) (t : str) :
  isSpace c = false -> trimStart (pre ++ c :: t) = trimStart pre ++ c :: t.
Proof. intro H. apply dropWhile_app_stop. now rewrite H. Qed.

Lemma trimEnd_app (a : str) (c : ascii) (post : str) :
  isSpace c = false -> trimEnd ((a ++ [c]) ++ post) = (a ++ [c]) ++ trimEnd post.
Proof.
  intro H. unfold trimEnd.
  replace (rev ((a ++ [c]) ++ post)) with (rev post ++ c :: rev a)
    by now rewrite !rev_app_distr.
  rewrite dropWhile_app_stop by now rewrite H.
  rewrite rev_app_distr. cbn [rev]. now rewrite rev_involutive.
Qed.

Lemma trimEnd_prefix (s : str) : exists w, s = trimEnd s ++ w.
Proof.
  exists (rev (takeWhile isSpace (rev s))). unfold trimEnd.
  rewrite <- rev_app_distr, takeWhile_dropWhile. now rewrite rev_involutive.
Qed.

Lemma startsWithOperator_trimEnd (s : str) :
  startsWithOperator s = false -> startsWithOperator (trimEnd s) = false.
Proof.
  intro H. destruct (trimEnd_prefix s) as [w E].
  destruct (trimEnd s) as [|c u]; [reflexivity|]. rewrite E in H. exact H.
Qed.

Lemma endsWithOperator_dropWhile (q : ascii -> bool) (s : str) :
  endsWithOperator s = false -> endsWithOperator (dropWhile q s) = false.
Proof.
  induction s as [|c t IH]; intro H; [reflexivity|]. cbn [dropWhile].
  destruct (q c); [|exact H]. destruct t as [|d t]; [reflexivity | exact (IH H)].
Qed.

Lemma operators_last (run : str) :
  run <> [] -> forallb isOperator run = true ->
  exists r c, run = r ++ [c] /\ isOperator c = true.
Proof.
  intros Hne Hops. destruct (exists_last Hne) as [r [c E]]. exists r, c. split; [exact E|].
  rewrite E, forallb_app in Hops. apply andb_true_iff in Hops as [_ Hc].
  cbn in Hc. now rewrite andb_true_r in Hc.
Qed.

(** C4. Let a text hold a maximal run of two or more operator characters:
    [run] between a [pre] that does not end with an operator and a [post]
    that does not begin with one.  The sanitized text is the sanitized [pre],
    then the single last character of the run, then the sanitized [post]; the
    character's neighbours are not operators. *)
Theorem sanitizeExpression_collapses_run (pre run post : str) :
  (2 <= length run)%nat ->
  forallb isOperator run = true ->
  endsWithOperator pre = false ->
  startsWithOperator post = false ->
  let before := collapseOperators (stripLeading (trimStart pre)) in
  let after := collapseOperators (trimEnd post) in
  sanitizeExpression (pre ++ run ++ post) = before ++ lastChar run ++ after
  /\ (exists c, lastChar run = [c] /\ isOperator c = true)
  /\ endsWithOperator before = false
  /\ startsWithOperator after = false.
Proof.
  intros Hlen Hops Hpre Hpost before after.
  destruct run as [|c r]; [simpl in Hlen; lia|].
  destruct r as [|d r]; [simpl in Hlen; lia|].
  pose proof Hops as Hc. cbn [forallb] in Hc. apply andb_true_iff in Hc as [Hc Hr].
  pose proof Hr as Hd. apply andb_true_iff in Hd as [Hd _].
  destruct (operators_last (c :: d :: r)) as [r0 [z [Ez Hz]]]; [discriminate | exact Hops |].
  assert (Hbefore : endsWithOperator (stripLeading (trimStart pre)) = false).
  { pose proof (endsWithOperator_dropWhile isSpace pre Hpre) as H.
    unfold trimStart. destruct (dropWhile isSpace pre) as [|x p]; [reflexivity|].
    unfold stripLeading. cbn [startsWithLeadingOperator slice1 tl].
    destruct (isLeadingOperator x) eqn:Hx; [|exact H].
    destruct p as [|y p]; [|exact H].
    cbn in H. apply leading_is_operator in Hx. congruence. }
  assert (Hafter : startsWithOperator (trimEnd post) = false)
    by now apply startsWithOperator_trimEnd.
  assert (T : trim (pre ++ (c :: d :: r) ++ post)
              = trimStart pre ++ (c :: d :: r) ++ trimEnd post).
  { unfold trim. cbn [app]. rewrite trimStart_app by now apply operator_not_space.
    change (trimStart pre ++ c :: d :: r ++ post)
      with (trimStart pre ++ (c :: d :: r) ++ post).
    rewrite app_assoc, Ez, app_assoc, trimEnd_app by now apply operator_not_space.
    change (c :: d :: r ++ trimEnd post) with ((c :: d :: r) ++ trimEnd post).
    now rewrite Ez, <- !app_assoc. }
  split; [|split; [|split]].
  - unfold before, after, sanitizeExpression. rewrite T, !collapseOperators_structural.
    destruct (trimStart pre) as [|x p] eqn:Ep.
    + cbn [app]. unfold stripLeading at 1. cbn [startsWithLeadingOperator slice1 tl].
      unfold lastChar.
      destruct (isLeadingOperator c).
      * change (d :: r ++ trimEnd post) with ((d :: r) ++ trimEnd post).
        rewrite dropFollowed_operators; trivial; [|discriminate].
        now rewrite sliceLast_cons.
      * change (c :: d :: r ++ trimEnd post) with ((c :: d :: r) ++ trimEnd post).
        rewrite dropFollowed_operators; trivial; discriminate.
    + assert (E : stripLeading ((x :: p) ++ (c :: d :: r) ++ trimEnd post)
                  = stripLeading (x :: p) ++ (c :: d :: r) ++ trimEnd post).
      { unfold stripLeading. cbn [app startsWithLeadingOperator slice1 tl].
        destruct (isLeadingOperator x); reflexivity. }
      rewrite E, dropFollowed_app by exact Hbefore.
      rewrite dropFollowed_operators; trivial; discriminate.
  - exists z. split; [|exact Hz]. unfold lastChar. rewrite (sliceLast_last c z).
    rewrite Ez. now rewrite last_last.
  - unfold before. rewrite collapseOperators_structural, endsWithOperator_dropFollowed.
    exact Hbefore.
  - unfold after. rewrite collapseOperators_structural.
    now apply startsWithOperator_dropFollowed.
Qed.

Lemma sanitizeExpression_collapses_run_witness :
  sanitizeExpression (("1" : str) ++ ("+-*" : str) ++ ("2" : str))
  = collapseOperators (stripLeading (trimStart "1")) ++ lastChar "+-*"
    ++ collapseOperators (trimEnd "2").
Proof.
  apply (sanitizeExpression_collapses_run "1" "+-*" "2"); [simpl; lia | reflexivity ..].
Defined.

(** The replacement of line 62 alone, on any text around a maximal run. *)
Lemma collapseOperators_run (pre run post : str) :
  run <> [] ->
  forallb isOperator run = true ->
  endsWithOperator pre = false ->
  startsWithOperator post = false ->
  collapseOperators (pre ++ run ++ post)
  = collapseOperators pre ++ lastChar run ++ collapseOperators post.
Proof.
  intros Hne Hops Hpre Hpost. rewrite !collapseOperators_structural.
  rewrite dropFollowed_app by exact Hpre. now rewrite dropFollowed_operators.
Qed.

(** After the replacement no operator is followed by an operator. *)
Lemma dropFollowed_no_adjacent (s : str) (a b : ascii) (l r : str) :
  dropFollowedOperators s = l ++ a :: b :: r ->
  isOperator a && isOperator b = false.
Proof.
  revert l. induction s as [|c t IH]; intros l E; [now destruct l|].
  rewrite dropFollowed_cons in E.
  destruct (isOperator c && startsWithOperator t) eqn:F; [exact (IH l E)|].
  destruct l as [|x l]; cbn [app] in E.
  - injection E as -> E. destruct t as [|d t]; [discriminate|].
    rewrite dropFollowed_cons in E. cbn [startsWithOperator] in F.
    destruct (isOperator d && startsWithOperator t) eqn:G.
    + apply andb_true_iff in G as [G _]. rewrite G, andb_true_r in F.
      now rewrite F.
    + injection E as -> _. exact F.
  - injection E as _ E. exact (IH l E).
Qed.

(** ** History *)

Lemma firstn_app_firstn {A : Type} (n : nat) (a b : list A) :
  firstn n (a ++ firstn n b) = firstn n (a ++ b).
Proof.
  rewrite !firstn_app, firstn_firstn. f_equal. f_equal. lia.
Qed.

(** [addToHistory] puts the new entry first and keeps the first 200. *)
Lemma addToHistory_history (now expression : str) (result : value) (st : State) :
  (length (history st) <= 200)%nat ->
  history (addToHistory now expression result st)
  = firstn 200 ({| expr := expression; result := ToString result; time := now |} :: history st).
Proof.
  intro H. unfold addToHistory. cbn [history setHistory].
  destruct (200 <? _)%nat eqn:E.
  - apply Nat.ltb_lt in E. cbn [length] in E.
    rewrite removelast_firstn_len. cbn [length Nat.pred].
    replace (length (history st)) with 200%nat by lia. reflexivity.
  - apply Nat.ltb_ge in E. symmetry. now apply firstn_all2.
Qed.

Lemma addToHistory_capped (now expression : str) (result : value) (st : State) :
  (length (history st) <= 200)%nat ->
  (length (history (addToHistory now expression result st)) <= 200)%nat.
Proof. intro H. rewrite addToHistory_history by exact H. apply firstn_le_length. Qed.

Lemma addToHistory_display (now expression : str) (result : value) (st : State) :
  display (addToHistory now expression result st) = display st.
Proof. reflexivity. Qed.

(** After any run of evaluations the history holds the latest 200 entries,
    newest first. *)
Lemma recordAll_history (now : str) (items : list (str * value)) (st : State) :
  (length (history st) <= 200)%nat ->
  history (recordAll now items st)
  = firstn 200
      (rev (map (fun it => {| expr := fst it; result := ToString (snd it); time := now |}) items)
       ++ history st).
Proof.
  revert st. induction items as [|it items IH]; intros st H.
  - cbn [recordAll fold_left map rev app]. symmetry. now apply firstn_all2.
  - cbn [recordAll fold_left]. fold (recordAll now items (addToHistory now (fst it) (snd it) st)).
    rewrite IH by now apply addToHistory_capped.
    rewrite addToHistory_history by exact H.
    rewrite firstn_app_firstn. cbn [map rev]. now rewrite <- app_assoc.
Qed.

(** After 201 evaluations from an empty history the entry of the first one is
    gone: the history is the entries of the other 200, newest first. *)
Lemma recordAll_evicts_first (now : str) (first : str * value) (others : list (str * value)) :
  length others = 200%nat ->
  history (recordAll now (first :: others) {| display := ""; history := [] |})
  = rev (map (fun it => {| expr := fst it; result := ToString (snd it); time := now |}) others).
Proof.
  intro H. rewrite recordAll_history by (cbn [history length]; lia). cbn [history map rev].
  rewrite app_nil_r, firstn_app.
  rewrite length_rev, length_map, H, Nat.sub_diag, firstn_O, app_nil_r.
  apply firstn_all2. rewrite length_rev, length_map. lia.
Qed.

(** [addSampleData] puts its five entries first and removes none. *)
Lemma addSampleData_history (now : nat -> str) (st : State) :
  history (addSampleData now st)
  = [ {| expr := "200-10%"; result := "180"; time := now 4%nat |};
      {| expr := "50%"; result := "0.5"; time := now 3%nat |};
      {| expr := "7*6"; result := "42"; time := now 2%nat |};
      {| expr := "12/4"; result := "3"; time := now 1%nat |};
      {| expr := "5+3"; result := "8"; time := now 0%nat |} ]
    ++ history st.
Proof. reflexivity. Qed.

(** C7. The 200 evaluations of 1, 2, ..., 200 fill the history; the five
    entries of [addSampleData] then make it 205 long, and the entry of the
    first evaluation is still the last one. *)
Theorem addSampleData_exceeds_cap :
  let items := map (fun i => (decimal (Z.of_nat i), VNumber (ofZ (Z.of_nat i)))) (seq 1 200) in
  let filled := recordAll "t" items {| display := ""; history := [] |} in
  let st := addSampleData (fun _ => "t") filled in
  length (history filled) = 200%nat
  /\ length (history st) = 205%nat
  /\ last (history st) {| expr := ""; result := ""; time := "" |}
     = {| expr := "1"; result := "1"; time := "t" |}.
Proof. vm_compute. repeat split. Qed.

(** ** Numbers and their decimal writing *)

Open Scope Z_scope.

Lemma digits2_bound (m : positive) : Zpos m < 2 ^ Zpos (digits2_pos m).
Proof.
  induction m as [p IH | p IH |]; cbn [digits2_pos].
  - rewrite Pos2Z.inj_succ, Z.pow_succ_r, Pos2Z.inj_xI by lia. lia.
  - rewrite Pos2Z.inj_succ, Z.pow_succ_r, Pos2Z.inj_xO by lia. lia.
  - reflexivity.
Qed.

(** The mantissa of a binary64 value has at most 53 bits. *)
Lemma valid_mantissa (s : bool) (m : positive) (e : Z) :
  valid_binary prec emax (S754_finite s m e) = true -> Zpos m < 2 ^ 53.
Proof.
  unfold valid_binary, bounded, canonical_mantissa, fexp, emin, prec, emax.
  intro H. apply andb_true_iff in H as [H _]. apply Z.eqb_eq in H.
  apply Z.lt_le_trans with (1 := digits2_bound m).
  apply Z.pow_le_mono_r; lia.
Qed.

Lemma non_integer_exponent (s : bool) (m : positive) (e : Z) :
  isInteger (S754_finite s m e) = false -> e < 0.
Proof.
  cbn [isInteger]. intro H. apply orb_false_iff in H as [H _].
  now apply Z.leb_gt in H.
Qed.

(** A binary64 value with a fraction is below [10 ^ 21]. *)
Lemma non_integer_below_limit (s : bool) (m : positive) (e : Z) :
  valid_binary prec emax (S754_finite s m e) = true ->
  isInteger (S754_finite s m e) = false ->
  ltPow10 m e 21 = true.
Proof.
  intros Hv Hi. apply valid_mantissa in Hv. apply non_integer_exponent in Hi.
  unfold ltPow10. apply Z.ltb_lt.
  rewrite (Z.max_r e 0), (Z.max_l (- e) 0) by lia.
  change (Z.max (- (21)) 0) with 0. change (Z.max 21 0) with 21.
  rewrite !Z.pow_0_r, !Z.mul_1_r.
  assert (P : 0 < 2 ^ (- e)) by (apply Z.pow_pos_nonneg; lia).
  assert (Q : 2 ^ 53 < 10 ^ 21) by reflexivity.
  nia.
Qed.

(** [nearestScaled] is the nearest integer, the larger one on a tie. *)
Lemma nearestScaled_spec (m : positive) (e : Z) (f : nat) :
  e < 0 ->
  let n := nearestScaled m e f in
  0 <= n
  /\ 2 * (Zpos m * 10 ^ Z.of_nat f) - 2 ^ (- e) < 2 * n * 2 ^ (- e)
     <= 2 * (Zpos m * 10 ^ Z.of_nat f) + 2 ^ (- e).
Proof.
  intros He n. unfold n, nearestScaled.
  rewrite (Z.max_r e 0), (Z.max_l (- e) 0) by lia.
  rewrite Z.pow_0_r, Z.mul_1_r.
  set (num := Zpos m * 10 ^ Z.of_nat f).
  set (den := 2 ^ (- e)).
  assert (Hden : 0 < den) by (apply Z.pow_pos_nonneg; lia).
  assert (Hnum : 0 <= num) by (apply Z.mul_nonneg_nonneg; [lia | apply Z.pow_nonneg; lia]).
  pose proof (Z.mul_div_le (2 * num + den) (2 * den) ltac:(lia)) as L.
  pose proof (Z.mul_succ_div_gt (2 * num + den) (2 * den) ltac:(lia)) as U.
  set (q := (2 * num + den) / (2 * den)) in *.
  split; [apply Z.div_pos; lia | lia].
Qed.

Lemma digitChar_spec (d : Z) :
  0 <= d <= 9 -> isDigit (digitChar d) = true /\ digitValue (digitChar d) = d.
Proof.
  intro H.
  assert (E : d = 0 \/ d = 1 \/ d = 2 \/ d = 3 \/ d = 4 \/ d = 5 \/ d = 6 \/ d = 7
              \/ d = 8 \/ d = 9) by lia.
  repeat (destruct E as [-> | E]; [split; reflexivity|]). subst. split; reflexivity.
Qed.

Lemma digitsOf_value (fuel : nat) (n : Z) (acc : str) :
  0 <= n < 2 ^ Z.of_nat fuel ->
  fold_left digitStep (digitsOf fuel n acc) 0 = fold_left digitStep acc n.
Proof.
  revert n acc. induction fuel as [|k IH]; intros n acc H.
  - cbn in H. assert (n = 0) by lia. subst. reflexivity.
  - cbn [digitsOf].
    pose proof (Z.mod_pos_bound n 10 ltac:(lia)) as B.
    destruct (digitChar_spec (n mod 10) ltac:(lia)) as [_ V].
    destruct (n <? 10) eqn:E.
    + apply Z.ltb_lt in E. cbn [fold_left]. unfold digitStep at 2. rewrite V.
      rewrite Z.mod_small by lia. reflexivity.
    + apply Z.ltb_ge in E. rewrite IH.
      * cbn [fold_left]. unfold digitStep at 2. rewrite V.
        rewrite <- (Z.div_mod n 10) by lia. reflexivity.
      * rewrite Nat2Z.inj_succ, Z.pow_succ_r in H by lia.
        split; [apply Z.div_pos; lia | apply Z.div_lt_upper_bound; lia].
Qed.

Lemma digitsOf_digits (fuel : nat) (n : Z) (acc : str) :
  0 <= n -> forallb isDigit acc = true -> forallb isDigit (digitsOf fuel n acc) = true.
Proof.
  revert n acc. induction fuel as [|k IH]; intros n acc H A; [exact A|].
  cbn [digitsOf].
  pose proof (Z.mod_pos_bound n 10 ltac:(lia)) as B.
  destruct (digitChar_spec (n mod 10) ltac:(lia)) as [D _].
  assert (A' : forallb isDigit (digitChar (n mod 10) :: acc) = true)
    by (cbn [forallb]; now rewrite D, A).
  destruct (n <? 10); [exact A'|]. apply IH; [apply Z.div_pos; lia | exact A'].
Qed.

Lemma digitsOf_length (fuel : nat) (n : Z) (acc : str) :
  (length acc <= length (digitsOf fuel n acc))%nat.
Proof.
  revert n acc. induction fuel as [|k IH]; intros n acc; [cbn; lia|].
  cbn [digitsOf]. destruct (n <? 10); [cbn; lia|].
  specialize (IH (n / 10) (digitChar (n mod 10) :: acc)). cbn [length] in IH. lia.
Qed.

Lemma decimal_value (n : Z) : 0 <= n -> digitsValue (decimal n) = n.
Proof.
  intro H. unfold digitsValue, decimal.
  rewrite digitsOf_value; [reflexivity|].
  split; [exact H|]. rewrite Nat2Z.inj_succ, Z2Nat.id by apply Z.log2_nonneg.
  destruct (Z.eq_dec n 0) as [-> | N]; [reflexivity|].
  apply Z.log2_spec. lia.
Qed.

Lemma decimal_digits (n : Z) : 0 <= n -> forallb isDigit (decimal n) = true.
Proof. intro H. now apply digitsOf_digits. Qed.

Lemma decimal_nonempty (n : Z) : (1 <= length (decimal n))%nat.
Proof.
  unfold decimal. cbn [digitsOf]. destruct (n <? 10); [cbn; lia|].
  etransitivity; [|apply digitsOf_length]. cbn. lia.
Qed.

Lemma zeros_value (j : nat) (l : str) :
  digitsValue (repeat "0"%char j ++ l) = digitsValue l.
Proof.
  unfold digitsValue. rewrite fold_left_app. f_equal.
  induction j as [|j IH]; [reflexivity | exact IH].
Qed.

Lemma zeros_digits (j : nat) : forallb isDigit (repeat "0"%char j) = true.
Proof. induction j as [|j IH]; [reflexivity | exact IH]. Qed.

(** [fixedPoint n f] is the writing of [n] with a dot before its last [f]
    digits, and at least one digit before the dot. *)
Lemma fixedPoint_spec (n : Z) (f : nat) :
  0 <= n -> (0 < f)%nat ->
  exists ip fp : str,
    fixedPoint n f = ip ++ "." ++ fp
    /\ ip <> [] /\ length fp = f
    /\ forallb isDigit (ip ++ fp) = true
    /\ digitsValue (ip ++ fp) = n.
Proof.
  intros Hn Hf. unfold fixedPoint.
  set (ds := repeat "0"%char (S f - length (decimal n)) ++ decimal n).
  assert (L : (S f <= length ds)%nat).
  { unfold ds. rewrite length_app, repeat_length.
    pose proof (decimal_nonempty n). lia. }
  exists (firstn (length ds - f) ds), (skipn (length ds - f) ds).
  assert (F : (f =? 0)%nat = false) by (apply Nat.eqb_neq; lia).
  rewrite F, firstn_skipn. repeat split.
  - intro E. apply (f_equal (@length ascii)) in E. rewrite length_firstn in E.
    cbn [length] in E. lia.
  - rewrite length_skipn. lia.
  - unfold ds. rewrite forallb_app, zeros_digits, decimal_digits by exact Hn. reflexivity.
  - unfold ds. rewrite zeros_value. now apply decimal_value.
Qed.

Lemma digit_not_space (c : ascii) : isDigit c = true -> isSpace c = false.
Proof. by_cases_on_char c. Qed.

Lemma splitSign_digit (c : ascii) (t : str) :
  isDigit c = true -> splitSign (c :: t) = (false, c :: t).
Proof. by_cases_on_char c. Qed.

Lemma digit_not_Infinity (c : ascii) (t : str) :
  isDigit c = true -> startsWith "Infinity" (c :: t) = false.
Proof. by_cases_on_char c. Qed.

Lemma takeWhile_app_stop (p : ascii -> bool) (a b : str) :
  forallb p a = true ->
  match b with [] => true | c :: _ => negb (p c) end = true ->
  takeWhile p (a ++ b) = a /\ dropWhile p (a ++ b) = b.
Proof.
  intros Ha Hb. induction a as [|x a IH]; cbn [app].
  - destruct b as [|c b]; [now split|]. cbn [takeWhile dropWhile].
    apply negb_true_iff in Hb. rewrite Hb. now split.
  - cbn [forallb] in Ha. apply andb_true_iff in Ha as [Hx Ha].
    cbn [takeWhile dropWhile]. rewrite Hx. destruct (IH Ha) as [T D].
    now rewrite T, D.
Qed.

(** [parseFloat] reads a fixed-point text back as the number nearest to the
    decimal it writes. *)
Lemma parseFloat_fixedPoint (sg : bool) (ip fp : str) :
  ip <> [] ->
  forallb isDigit (ip ++ fp) = true ->
  parseFloat ((if sg then "-" else "") ++ ip ++ "." ++ fp)
  = ofDecimal sg (digitsValue (ip ++ fp)) (- Z.of_nat (length fp)).
Proof.
  intros Hne Hd.
  destruct ip as [|c ip]; [contradiction|].
  pose proof Hd as Hall. rewrite forallb_app in Hall.
  apply andb_true_iff in Hall as [Hip Hfp].
  pose proof Hip as Hc. cbn [forallb] in Hc. apply andb_true_iff in Hc as [Hc _].
  assert (S : splitSign (trimStart ((if sg then "-" else "") ++ (c :: ip) ++ "." ++ fp))
              = (sg, (c :: ip) ++ "." ++ fp)).
  { destruct sg.
    - reflexivity.
    - cbn [app String.list_ascii_of_string]. unfold trimStart. cbn [dropWhile].
      rewrite (digit_not_space c Hc). now apply splitSign_digit. }
  unfold parseFloat. rewrite S.
  change ((c :: ip) ++ "." ++ fp) with (c :: (ip ++ "." ++ fp)) at 1.
  rewrite (digit_not_Infinity c _ Hc).
  destruct (takeWhile_app_stop isDigit (c :: ip) ("." ++ fp) Hip eq_refl) as [T D].
  rewrite T, D. cbn [app String.list_ascii_of_string fractionPart].
  destruct (takeWhile_app_stop isDigit fp [] Hfp eq_refl) as [T' D'].
  rewrite app_nil_r in T', D'. rewrite T', D'.
  cbn [exponentPart]. reflexivity.
Qed.

(** The rounding step gives back a non-finite number as it is. *)
Lemma rounded_non_finite (x : number) :
  match x with S754_nan | S754_infinity _ => True | _ => False end ->
  parseFloat (toFixed x 10) = x.
Proof. destruct x as [|[]| |]; intro H; try contradiction; reflexivity. Qed.

(** ** Evaluation on request *)

(** The new entry is the first of the history, with or without eviction. *)
Lemma addToHistory_newest_first (now expression : str) (result : value) (st : State) :
  hd_error (history (addToHistory now expression result st))
  = Some {| expr := expression; result := ToString result; time := now |}.
Proof.
  unfold addToHistory. cbn [history setHistory].
  destruct (history st) as [|a h]; [reflexivity|].
  destruct (200 <? _)%nat; reflexivity.
Qed.

(** C6. When the evaluation of the trimmed display succeeds with a number,
    the display and the newest history entry show that number itself if it
    is an integer, and otherwise the number read back from its writing with
    ten fraction digits: for a finite value [m * 2 ^ e] that writing denotes
    [n / 10 ^ 10] for the integer [n] nearest to [m * 2 ^ e * 10 ^ 10], and
    what is shown is the number nearest to [n / 10 ^ 10].  NaN and the
    infinities are shown as they are. *)
Theorem calculateResult_rounds
        (host : str -> completion) (now : str) (st : State) (x : number) :
  Str.eqb (trim (display st)) "" = false ->
  safeEval host (trim (display st)) = Return (VNumber x) ->
  valid_binary prec emax x = true ->
  let shown := if isInteger x then x else parseFloat (toFixed x 10) in
  display (calculateResult host now st) = toString shown
  /\ hd_error (history (calculateResult host now st))
     = Some {| expr := trim (display st); result := toString shown; time := now |}
  /\ (isInteger x = false ->
      match x with
      | S754_finite s m e =>
          exists (n : Z) (ip fp : str),
            2 * (Zpos m * 10 ^ 10) - 2 ^ (- e) < 2 * n * 2 ^ (- e)
              <= 2 * (Zpos m * 10 ^ 10) + 2 ^ (- e)
            /\ toFixed x 10 = (if s then "-" else "") ++ ip ++ "." ++ fp
            /\ ip <> [] /\ length fp = 10%nat
            /\ forallb isDigit (ip ++ fp) = true
            /\ digitsValue (ip ++ fp) = n
            /\ shown = ofDecimal s n (-10)
      | _ => shown = x
      end).
Proof.
  intros Hne He Hv shown.
  assert (R : rounded (VNumber x) = VNumber shown).
  { unfold rounded, shown. destruct (isInteger x); reflexivity. }
  split; [|split].
  - unfold calculateResult. rewrite Hne, He, R. reflexivity.
  - unfold calculateResult. rewrite Hne, He, R. cbn [history setDisplay].
    apply addToHistory_newest_first.
  - intro Hi. unfold shown. rewrite Hi.
    destruct x as [z | i | | s m e].
    + discriminate Hi.
    + now apply rounded_non_finite.
    + now apply rounded_non_finite.
    + pose proof (non_integer_below_limit s m e Hv Hi) as Hl.
      pose proof (non_integer_exponent s m e Hi) as Hneg.
      destruct (nearestScaled_spec m e 10 Hneg) as [Hn Hb].
      destruct (fixedPoint_spec (nearestScaled m e 10) 10 Hn ltac:(lia))
        as (ip & fp & E & Hip & Hfp & Hd & Hval).
      exists (nearestScaled m e 10), ip, fp.
      assert (T : toFixed (S754_finite s m e) 10 = (if s then "-" else "") ++ ip ++ "." ++ fp).
      { unfold toFixed. now rewrite Hl, E. }
      split; [exact Hb|]. split; [exact T|]. split; [exact Hip|].
      split; [exact Hfp|]. split; [exact Hd|]. split; [exact Hval|].
      rewrite T, parseFloat_fixedPoint by assumption. now rewrite Hfp, Hval.
Qed.

Lemma calculateResult_rounds_witness :
  display (calculateResult arithOnly "t" {| display := "1/3"; history := [] |})
  = toString (if isInteger (div (ofZ 1) (ofZ 3)) then div (ofZ 1) (ofZ 3)
              else parseFloat (toFixed (div (ofZ 1) (ofZ 3)) 10)).
Proof.
  refine (proj1 (calculateResult_rounds arithOnly "t" {| display := "1/3"; history := [] |}
                   (div (ofZ 1) (ofZ 3)) _ _ _)).
  - reflexivity.
  - vm_compute. reflexivity.
  - vm_compute. reflexivity.
Defined.

(** The thirds: 1/3 and 2/3 are shown with ten fraction digits, and the sum
    of 0.1 and 0.2 as 0.3. *)
Lemma calculateResult_examples :
  display (calculateResult arithOnly "t" {| display := "1/3"; history := [] |}) = "0.3333333333"
  /\ display (calculateResult arithOnly "t" {| display := "2/3"; history := [] |}) = "0.6666666667"
  /\ display (calculateResult arithOnly "t" {| display := "0.1+0.2"; history := [] |}) = "0.3"
  /\ display (calculateResult arithOnly "t" {| display := "1/0"; history := [] |}) = "Infinity"
  /\ display (calculateResult arithOnly "t" {| display := "0/0"; history := [] |}) = "NaN"
  /\ calculateResult arithOnly "t" {| display := "200-10%"; history := [] |}
     = {| display := "199.9";
          history := [ {| expr := "200-10%"; result := "199.9"; time := "t" |} ] |}.
Proof. vm_compute. repeat split. Qed.

(** ** The search of [replace] ends *)

(** When every match leaves a shorter rest, [length s] steps reach the end of
    [s]: more fuel changes nothing. *)
Lemma replaceAll_fuel (re : str -> option (str * str)) (f : str -> str) :
  (forall s m rest, re s = Some (m, rest) -> (length rest < length s)%nat) ->
  forall (n k : nat) (s : str),
    (length s <= n)%nat -> (length s <= k)%nat ->
    replaceAll re f n s = replaceAll re f k s.
Proof.
  intros Hre n. induction n as [|n IH]; intros k s Hn Hk.
  - destruct s; [|cbn in Hn; lia]. destruct k; reflexivity.
  - destruct k as [|k]; [destruct s; [reflexivity | cbn in Hk; lia]|].
    destruct s as [|c t]; [reflexivity|]. cbn [replaceAll].
    destruct (re (c :: t)) as [[m rest]|] eqn:E.
    + apply Hre in E. cbn [length] in *. f_equal. apply IH; lia.
    + cbn [length] in *. f_equal. apply IH; lia.
Qed.

Lemma percent_shorter (s m rest : str) :
  percent s = Some (m, rest) -> (length rest < length s)%nat.
Proof.
  unfold percent. intro H.
  pose proof (takeWhile_dropWhile isDigit s) as E.
  apply (f_equal (@length ascii)) in E. rewrite length_app in E.
  destruct (takeWhile isDigit s) as [|d ds]; [discriminate|].
  destruct (dropWhile isDigit s) as [|c r1]; [discriminate|].
  cbn [length] in E.
  destruct (Ascii.eqb_spec c "%") as [-> | N1].
  - injection H as _ <-. lia.
  - destruct (Ascii.eqb_spec c ".") as [-> | N2].
    + pose proof (dropWhile_length isDigit r1) as L.
      destruct (takeWhile isDigit r1); [discriminate|].
      destruct (dropWhile isDigit r1) as [|c' r2]; [discriminate|].
      cbn [length] in L.
      destruct (Ascii.eqb_spec c' "%") as [-> | N3].
      * injection H as _ <-. lia.
      * exfalso. revert H. clear - N3.
        destruct c' as [[] [] [] [] [] [] [] []]; try discriminate. now intros _.
    + exfalso. revert H. clear - N1 N2.
      destruct c as [[] [] [] [] [] [] [] []]; try discriminate; now intros _.
Qed.

Lemma operatorRun_shorter (s m rest : str) :
  operatorRun s = Some (m, rest) -> (length rest < length s)%nat.
Proof.
  unfold operatorRun. intro H.
  pose proof (takeWhile_dropWhile isOperator s) as E.
  apply (f_equal (@length ascii)) in E. rewrite length_app in E.
  destruct (2 <=? length (takeWhile isOperator s))%nat eqn:L; [|discriminate].
  apply Nat.leb_le in L. injection H as _ <-. lia.
Qed.

(** [normalizePercent] does not depend on the fuel of the search. *)
Lemma normalizePercent_fuel (n : nat) (expr : str) :
  (length expr <= n)%nat ->
  replaceAll percent (fun g1 => "(" ++ g1 ++ "/100)") n expr = normalizePercent expr.
Proof.
  intro H. unfold normalizePercent, replace.
  apply replaceAll_fuel; [exact percent_shorter | exact H | lia].
Qed.

(** ** Sample runs *)

Example normalizePercent_samples :
  normalizePercent "50%" = "(50/100)"
  /\ normalizePercent "200-10%" = "200-(10/100)"
  /\ normalizePercent "1.2.3%+5%%" = "1.(2.3/100)+(5/100)%"
  /\ normalizePercent "(5)%3" = "(5)%3".
Proof. repeat split. Qed.

Example sanitizeExpression_samples :
  sanitizeExpression " *2+3 " = "2+3"
  /\ sanitizeExpression "1+-*2//3" = "1*2/3"
  /\ sanitizeExpression "-5" = "-5".
Proof. repeat split. Qed.

(** A dot on an empty numeric segment is written as "0."; a second dot in a
    segment and a leading [+ * /] are refused; an operator replaces a
    trailing operator. *)
Example appendValue_samples :
  display (appendValue "." {| display := "1+"; history := [] |}) = "1+0."
  /\ display (appendValue "." {| display := "1.5"; history := [] |}) = "1.5"
  /\ display (appendValue "*" {| display := ""; history := [] |}) = ""
  /\ display (appendValue "-" {| display := ""; history := [] |}) = "-"
  /\ display (appendValue "*" {| display := "1+"; history := [] |}) = "1*".
Proof. repeat split. Qed.

(** * Further properties of the script *)

Import Shape Page.

(** ** The sanitizer, lines 56-65 *)

Lemma startsWithOperator_dropFollowed_eq (s : str) :
  startsWithOperator (dropFollowedOperators s) = startsWithOperator s.
Proof.
  induction s as [|c t IH]; [reflexivity|]. rewrite dropFollowed_cons.
  destruct (isOperator c && startsWithOperator t) eqn:E.
  - apply andb_true_iff in E as [Hc Ht]. rewrite IH, Ht. cbn. now rewrite Hc.
  - reflexivity.
Qed.

Lemma adjacentOperators_cons (c : ascii) (t : str) :
  adjacentOperators (c :: t)
  = (isOperator c && startsWithOperator t) || adjacentOperators t.
Proof. destruct t as [|d t]; [cbn; now rewrite andb_false_r | reflexivity]. Qed.

Lemma dropFollowed_not_adjacent (s : str) :
  adjacentOperators (dropFollowedOperators s) = false.
Proof.
  induction s as [|c t IH]; [reflexivity|]. rewrite dropFollowed_cons.
  destruct (isOperator c && startsWithOperator t) eqn:E; [exact IH|].
  now rewrite adjacentOperators_cons, startsWithOperator_dropFollowed_eq, E, IH.
Qed.

Lemma dropFollowed_fixes (s : str) :
  adjacentOperators s = false -> dropFollowedOperators s = s.
Proof.
  induction s as [|c t IH]; [reflexivity|]. rewrite adjacentOperators_cons.
  intro H. apply orb_false_iff in H as [H1 H2].
  rewrite dropFollowed_cons, H1. f_equal. exact (IH H2).
Qed.

(** X1. Whatever the text, no operator character of the sanitized text is
    followed by an operator character. *)
Theorem sanitizeExpression_no_adjacent_operators (expr : str) :
  adjacentOperators (sanitizeExpression expr) = false.
Proof.
  unfold sanitizeExpression. rewrite collapseOperators_structural.
  apply dropFollowed_not_adjacent.
Qed.

(** X2. A text without surrounding white space, without a leading [+ * /]
    and without two operators in a row is left as it is. *)
Theorem sanitizeExpression_fixes_clean_text (expr : str) :
  trim expr = expr ->
  startsWithLeadingOperator expr = false ->
  adjacentOperators expr = false ->
  sanitizeExpression expr = expr.
Proof.
  intros Ht Hl Ha. unfold sanitizeExpression, stripLeading.
  rewrite Ht, Hl, collapseOperators_structural. now apply dropFollowed_fixes.
Qed.

Lemma sanitizeExpression_fixes_clean_text_witness :
  sanitizeExpression "-5+3*(2-1)" = "-5+3*(2-1)".
Proof.
  apply (sanitizeExpression_fixes_clean_text "-5+3*(2-1)"); reflexivity.
Defined.

(** ** Percent rewriting, lines 50-53 *)

Lemma takeWhile_all (p : ascii -> bool) (s : str) : forallb p (takeWhile p s) = true.
Proof.
  induction s as [|c t IH]; [reflexivity|]. cbn [takeWhile].
  destruct (p c) eqn:E; [cbn [forallb]; now rewrite E | reflexivity].
Qed.

Lemma takeWhile_last (p : ascii -> bool) (s : str) :
  takeWhile p s <> [] -> exists a z, takeWhile p s = a ++ [z] /\ p z = true.
Proof.
  intro H. destruct (exists_last H) as [a [z E]]. exists a, z. split; [exact E|].
  pose proof (takeWhile_all p s) as F. rewrite E, forallb_app in F.
  apply andb_true_iff in F as [_ F]. cbn in F. now rewrite andb_true_r in F.
Qed.

(** A match of the percent expression: digits, perhaps a dot and digits,
    ending in a digit, with the percent sign behind it. *)
Lemma percent_spec (s m rest : str) :
  percent s = Some (m, rest) ->
  s = m ++ "%"%char :: rest
  /\ forallb (fun c => isDigit c || (c =? ".")%char) m = true
  /\ exists a z, m = a ++ [z] /\ isDigit z = true.
Proof.
  unfold percent. intro H.
  pose proof (takeWhile_dropWhile isDigit s) as E.
  pose proof (takeWhile_all isDigit s) as A.
  assert (D : forall l, forallb isDigit l = true ->
                        forallb (fun c => isDigit c || (c =? ".")%char) l = true).
  { intros l. induction l as [|x l IH]; [reflexivity|]. cbn [forallb]. intro F.
    apply andb_true_iff in F as [F1 F2]. now rewrite F1, (IH F2). }
  destruct (takeWhile isDigit s) as [|d ds] eqn:T; [discriminate|].
  assert (N : takeWhile isDigit s <> []) by (rewrite T; discriminate).
  destruct (dropWhile isDigit s) as [|c r1]; [discriminate|].
  destruct (Ascii.eqb_spec c "%") as [-> | N1].
  - injection H as <- <-. split; [now rewrite E|]. split; [now apply D|].
    rewrite <- T. now apply takeWhile_last.
  - destruct (Ascii.eqb_spec c ".") as [-> | N2].
    + pose proof (takeWhile_dropWhile isDigit r1) as E2.
      pose proof (takeWhile_all isDigit r1) as A2.
      destruct (takeWhile isDigit r1) as [|d2 ds2] eqn:T2; [discriminate|].
      assert (N' : takeWhile isDigit r1 <> []) by (rewrite T2; discriminate).
      destruct (dropWhile isDigit r1) as [|c' r2]; [discriminate|].
      destruct (Ascii.eqb_spec c' "%") as [-> | N3].
      * injection H as <- <-. split; [|split].
        -- rewrite <- E, <- E2. cbn [String.list_ascii_of_string app].
           now rewrite <- !app_assoc.
        -- change (d :: ds ++ "."%char :: d2 :: ds2)
             with ((d :: ds) ++ ["."%char] ++ d2 :: ds2).
           rewrite !forallb_app, (D _ A), (D _ A2). reflexivity.
        -- destruct (takeWhile_last isDigit r1 N') as [a [z [Ea Hz]]].
           rewrite T2 in Ea. exists ((d :: ds) ++ "." ++ a), z. split; [|exact Hz].
           rewrite Ea. cbn [String.list_ascii_of_string app]. now rewrite <- !app_assoc.
      * exfalso. revert H. clear - N3.
        destruct c' as [[] [] [] [] [] [] [] []]; try discriminate. now intros _.
    + exfalso. revert H. clear - N1 N2.
      destruct c as [[] [] [] [] [] [] [] []]; try discriminate; now intros _.
Qed.

Lemma digitBeforePercent_cons (c : ascii) (t : str) :
  digitBeforePercent (c :: t)
  = (isDigit c && match t with b :: _ => (b =? "%")%char | [] => false end)
    || digitBeforePercent t.
Proof. destruct t as [|d t]; [cbn; now rewrite andb_false_r | reflexivity]. Qed.

Lemma digitBeforePercent_prefix (a : str) (z : ascii) (r : str) :
  forallb (fun c => negb (c =? "%")%char) (a ++ [z]) = true ->
  isDigit z = false ->
  digitBeforePercent ((a ++ [z]) ++ r) = digitBeforePercent r.
Proof.
  intros Ha Hz. induction a as [|x a IH]; cbn [app] in *.
  - now rewrite digitBeforePercent_cons, Hz.
  - cbn [forallb] in Ha. apply andb_true_iff in Ha as [_ Ha].
    rewrite digitBeforePercent_cons, (IH Ha).
    assert (E : match (a ++ [z]) ++ r with b :: _ => (b =? "%")%char | [] => false end = false).
    { destruct a as [|y a]; cbn [app forallb] in *;
        apply andb_true_iff in Ha as [Ha _]; now apply negb_true_iff in Ha. }
    now rewrite E, andb_false_r.
Qed.

Lemma digitBeforePercent_found (a : str) (z : ascii) (r : str) :
  isDigit z = true -> digitBeforePercent (a ++ z :: "%"%char :: r) = true.
Proof.
  intro Hz. induction a as [|x a IH]; cbn [app].
  - cbn. now rewrite Hz.
  - rewrite digitBeforePercent_cons, IH. apply orb_true_r.
Qed.

Lemma digit_or_dot_not_percent (c : ascii) :
  isDigit c || (c =? ".")%char = true -> negb (c =? "%")%char = true.
Proof. by_cases_on_char c. Qed.

Lemma percent_none (s : str) : digitBeforePercent s = false -> percent s = None.
Proof.
  intro H. destruct (percent s) as [[m rest]|] eqn:E; [|reflexivity].
  destruct (percent_spec s m rest E) as [Es [_ [a [z [Em Hz]]]]].
  rewrite Es, Em, <- app_assoc in H. cbn [app] in H.
  rewrite digitBeforePercent_found in H by exact Hz. discriminate.
Qed.

Lemma percent_digit (c : ascii) (r : str) :
  isDigit c = true -> percent (c :: "%"%char :: r) = Some ([c], r).
Proof. intro H. unfold percent. cbn [takeWhile dropWhile]. rewrite H. reflexivity. Qed.

Lemma percent_replacement_head (n : nat) (t : str) :
  match replaceAll percent (fun g1 => "(" ++ g1 ++ "/100)") n t with
  | b :: _ => (b =? "%")%char
  | [] => false
  end = true ->
  match t with b :: _ => (b =? "%")%char | [] => false end = true.
Proof.
  destruct n as [|n]; [trivial|]. destruct t as [|c t]; [trivial|].
  cbn [replaceAll]. destruct (percent (c :: t)) as [[m rest]|]; [discriminate | trivial].
Qed.

Lemma normalizePercent_fuel_clean (n : nat) (s : str) :
  (length s <= n)%nat ->
  digitBeforePercent (replaceAll percent (fun g1 => "(" ++ g1 ++ "/100)") n s) = false.
Proof.
  revert s. induction n as [|n IH]; intros s H.
  - destruct s; [reflexivity | cbn in H; lia].
  - destruct s as [|c t]; [reflexivity|]. cbn [replaceAll].
    destruct (percent (c :: t)) as [[m rest]|] eqn:E.
    + pose proof (percent_shorter _ _ _ E) as L.
      destruct (percent_spec _ _ _ E) as [_ [Hm _]].
      replace ("(" ++ m ++ "/100)") with (("(" ++ m ++ "/100") ++ [")"%char])
        by (now rewrite <- !app_assoc).
      rewrite digitBeforePercent_prefix; [apply IH; cbn in *; lia | | reflexivity].
      rewrite !forallb_app. cbn [String.list_ascii_of_string forallb].
      assert (F : forallb (fun c0 => negb (c0 =? "%")%char) m = true).
      { clear - Hm. induction m as [|x m IH]; [reflexivity|]. cbn [forallb] in *.
        apply andb_true_iff in Hm as [H1 H2].
        now rewrite (digit_or_dot_not_percent x H1), (IH H2). }
      now rewrite F.
    + rewrite digitBeforePercent_cons, IH by (cbn in H; lia).
      rewrite orb_false_r. destruct (isDigit c) eqn:Hc; [|reflexivity]. cbn [andb].
      match goal with |- ?b = false => destruct b eqn:P end; [|reflexivity].
      apply percent_replacement_head in P.
      destruct t as [|d t]; [discriminate|]. apply Ascii.eqb_eq in P. subst d.
      rewrite (percent_digit c t Hc) in E. discriminate.
Qed.

Lemma normalizePercent_fuel_fixes (n : nat) (s : str) :
  digitBeforePercent s = false ->
  replaceAll percent (fun g1 => "(" ++ g1 ++ "/100)") n s = s.
Proof.
  revert s. induction n as [|n IH]; intros s H; [reflexivity|].
  destruct s as [|c t]; [reflexivity|]. cbn [replaceAll].
  rewrite (percent_none _ H). f_equal. apply IH.
  rewrite digitBeforePercent_cons in H. now apply orb_false_iff in H as [_ H].
Qed.

(** X3. In the rewritten text no digit is followed by a percent sign, so
    rewriting it again changes nothing. *)
Theorem normalizePercent_complete (expr : str) :
  digitBeforePercent (normalizePercent expr) = false
  /\ normalizePercent (normalizePercent expr) = normalizePercent expr.
Proof.
  assert (H : digitBeforePercent (normalizePercent expr) = false)
    by (apply normalizePercent_fuel_clean; lia).
  split; [exact H|]. unfold normalizePercent at 1, replace.
  now apply normalizePercent_fuel_fixes.
Qed.

(** X4. A text in which no digit is followed by a percent sign is left as it
    is: a percent sign behind a parenthesis or behind another percent sign is
    not rewritten. *)
Theorem normalizePercent_fixes (expr : str) :
  digitBeforePercent expr = false -> normalizePercent expr = expr.
Proof. intro H. unfold normalizePercent, replace. now apply normalizePercent_fuel_fixes. Qed.

Lemma normalizePercent_fixes_witness : normalizePercent "(5)%3+2.%%" = "(5)%3+2.%%".
Proof. apply (normalizePercent_fixes "(5)%3+2.%%"). reflexivity. Defined.

(** ** What reaches the host, lines 67-80 *)

Lemma replaceAll_forallb (P : ascii -> bool)
      (re : str -> option (str * str)) (f : str -> str) :
  (forall s m rest, re s = Some (m, rest) -> forallb P s = true ->
                    forallb P (f m) = true /\ forallb P rest = true) ->
  forall (n : nat) (s : str),
    forallb P s = true -> forallb P (replaceAll re f n s) = true.
Proof.
  intros Hre n. induction n as [|n IH]; intros s H; [exact H|].
  destruct s as [|c t]; [reflexivity|]. cbn [replaceAll].
  destruct (re (c :: t)) as [[m rest]|] eqn:E.
  - destruct (Hre _ _ _ E H) as [H1 H2]. rewrite forallb_app, H1. now apply IH.
  - cbn [forallb] in *. apply andb_true_iff in H as [H1 H2]. rewrite H1. now apply IH.
Qed.

Lemma forallb_dropWhile (P q : ascii -> bool) (s : str) :
  forallb P s = true -> forallb P (dropWhile q s) = true.
Proof.
  induction s as [|c t IH]; intro H; [reflexivity|]. cbn [dropWhile].
  destruct (q c); [|exact H]. cbn [forallb] in H. apply andb_true_iff in H as [_ H]. auto.
Qed.

Lemma forallb_rev (P : ascii -> bool) (s : str) :
  forallb P s = true -> forallb P (rev s) = true.
Proof.
  rewrite !forallb_forall. intros H x Hx. apply H. now apply in_rev.
Qed.

Lemma forallb_skipn (P : ascii -> bool) (k : nat) (s : str) :
  forallb P s = true -> forallb P (skipn k s) = true.
Proof.
  revert s. induction k as [|k IH]; intros s H; [exact H|].
  destruct s as [|c t]; [reflexivity|]. cbn [forallb] in H.
  apply andb_true_iff in H as [_ H]. now apply IH.
Qed.

Lemma normalizePercent_allowed (expr : str) :
  forallb isAllowed expr = true -> forallb isAllowed (normalizePercent expr) = true.
Proof.
  apply replaceAll_forallb. intros s m rest E H.
  destruct (percent_spec _ _ _ E) as [Es _]. rewrite Es, forallb_app in H.
  apply andb_true_iff in H as [Hm Hr]. cbn [forallb] in Hr.
  apply andb_true_iff in Hr as [_ Hr]. split; [|exact Hr].
  rewrite !forallb_app, Hm. reflexivity.
Qed.

Lemma sanitizeExpression_allowed (expr : str) :
  forallb isAllowed expr = true -> forallb isAllowed (sanitizeExpression expr) = true.
Proof.
  intro H. unfold sanitizeExpression, collapseOperators, replace.
  apply replaceAll_forallb.
  - intros s m rest E Hs. unfold operatorRun in E.
    destruct (2 <=? length (takeWhile isOperator s))%nat; [|discriminate].
    injection E as <- <-. rewrite <- (takeWhile_dropWhile isOperator s), forallb_app in Hs.
    apply andb_true_iff in Hs as [H1 H2]. split; [|exact H2].
    unfold lastChar, sliceLast. now apply forallb_skipn.
  - assert (T : forallb isAllowed (trim expr) = true).
    { unfold trim, trimEnd, trimStart. apply forallb_rev, forallb_dropWhile, forallb_rev.
      now apply forallb_dropWhile. }
    unfold stripLeading. destruct (startsWithLeadingOperator (trim expr)); [|exact T].
    unfold slice1. destruct (trim expr) as [|c t]; [reflexivity|].
    cbn [forallb tl] in *. now apply andb_true_iff in T as [_ T].
Qed.

(** X5. [safeEval] either throws its validation error or runs the host on
    an expression made of accepted characters only, in which no operator is
    followed by an operator: no other character and none of the tokens [++],
    [--], [**] or a comment opener reaches the host. *)
Theorem safeEval_host_input (host : str -> completion) (raw : str) :
  safeEval host raw = Throw (Error "Invalid characters")
  \/ exists e : str,
       forallb isAllowed e = true
       /\ adjacentOperators e = false
       /\ safeEval host raw = host (functionBody e).
Proof.
  unfold safeEval. destruct (onlyAllowed raw) eqn:E; [right | now left].
  exists (sanitizeExpression (normalizePercent raw)). split; [|split].
  - apply sanitizeExpression_allowed, normalizePercent_allowed.
    destruct raw; [discriminate | exact E].
  - unfold sanitizeExpression. rewrite collapseOperators_structural.
    apply dropFollowed_not_adjacent.
  - reflexivity.
Qed.

(** ** Keys on the display, lines 83-123 *)

Lemma includes_operators (c : ascii) : includes "+-*/" [c] = isOperator c.
Proof. by_cases_on_char c. Qed.

Lemma eqb_dot (c : ascii) : Str.eqb [c] "." = (c =? ".")%char.
Proof. cbn. apply andb_true_r. Qed.

Lemma eqb_minus (c : ascii) : Str.eqb [c] "-" = (c =? "-")%char.
Proof. cbn. apply andb_true_r. Qed.

Lemma operator_not_dot (c : ascii) : isOperator c = true -> (c =? ".")%char = false.
Proof. by_cases_on_char c. Qed.

Lemma endsWithOperator_snoc (a : str) (z : ascii) :
  endsWithOperator (a ++ [z]) = isOperator z.
Proof.
  induction a as [|x a IH]; [reflexivity|].
  cbn [app]. destruct a as [|y a]; [reflexivity | exact IH].
Qed.

Lemma adjacentOperators_snoc (a : str) (z : ascii) :
  adjacentOperators (a ++ [z])
  = adjacentOperators a || (endsWithOperator a && isOperator z).
Proof.
  induction a as [|x a IH]; [reflexivity|].
  destruct a as [|y a].
  - cbn. now rewrite !orb_false_r.
  - change ((x :: y :: a) ++ [z]) with (x :: (y :: a) ++ [z]).
    rewrite (adjacentOperators_cons x ((y :: a) ++ [z])), IH.
    rewrite (adjacentOperators_cons x (y :: a)).
    cbn [app startsWithOperator]. change (endsWithOperator (x :: y :: a))
      with (endsWithOperator (y :: a)).
    now rewrite orb_assoc.
Qed.

(** The test of line 94: the display is empty or ends with an operator. *)
Lemma lastChar_operator (d : str) :
  includes "+-*/" (sliceLast d)
  = match d with [] => true | _ :: _ => endsWithOperator d end.
Proof.
  destruct d as [|c t]; [reflexivity|].
  destruct (exists_last (l := c :: t) ltac:(discriminate)) as [a [z E]].
  rewrite (sliceLast_last c z), E, last_last, endsWithOperator_snoc.
  apply includes_operators.
Qed.

Lemma sentinel_not_operator_end (d : str) :
  isSentinel d = true -> endsWithOperator d = false.
Proof.
  unfold isSentinel. intro H.
  apply orb_true_iff in H as [H | H]; [apply orb_true_iff in H as [H | H]|];
    apply eqb_eq in H; subst; reflexivity.
Qed.

(** The display [appendValue] works on, after line 85-87. *)
Lemma appendValue_start (st : State) :
  display (if isSentinel (display st) then setDisplay "" st else st)
  = if isSentinel (display st) then [] else display st.
Proof. destruct (isSentinel (display st)); reflexivity. Qed.

(** X6. A one-character key never puts two operators in a row: if the
    display has none, it has none after [appendValue]. *)
Theorem appendValue_no_adjacent_operators (c : ascii) (st : State) :
  adjacentOperators (display st) = false ->
  adjacentOperators (display (appendValue [c] st)) = false.
Proof.
  intro H. unfold appendValue.
  set (st0 := if isSentinel (display st) then setDisplay "" st else st).
  assert (H0 : adjacentOperators (display st0) = false).
  { unfold st0. rewrite appendValue_start. now destruct (isSentinel (display st)). }
  clearbody st0. clear H st.
  rewrite includes_operators, lastChar_operator, eqb_dot.
  assert (A : forall (d : str) (x : ascii),
             adjacentOperators d = false -> isOperator x = false ->
             adjacentOperators (d ++ [x]) = false).
  { intros d x Hd Hx. now rewrite adjacentOperators_snoc, Hd, Hx, andb_false_r. }
  destruct (isOperator c) eqn:Hc.
  - destruct (Str.eqb (display st0) "" && negb (Str.eqb [c] "-")); [exact H0|].
    destruct (display st0) as [|x t] eqn:E.
    + reflexivity.
    + destruct (endsWithOperator (x :: t)) eqn:F.
      * cbn [display setDisplay]. unfold sliceInit.
        destruct (exists_last (l := x :: t) ltac:(discriminate)) as [a [z Ez]].
        rewrite Ez in *. rewrite removelast_last.
        rewrite adjacentOperators_snoc in H0. rewrite endsWithOperator_snoc in F.
        apply orb_false_iff in H0 as [H1 H2]. rewrite F, andb_true_r in H2.
        now rewrite adjacentOperators_snoc, H1, H2.
      * rewrite (operator_not_dot c Hc). cbn [display setDisplay].
        now rewrite adjacentOperators_snoc, H0, F.
  - destruct (c =? ".")%char eqn:Ed.
    + destruct (includes (last (split (display st0)) []) "."); [exact H0|].
      destruct (Str.eqb (last (split (display st0)) []) ""); cbn [display setDisplay].
      * apply A; [apply A; [exact H0 | reflexivity] | exact Hc].
      * now apply A.
    + cbn [display setDisplay]. now apply A.
Qed.

Lemma appendValue_no_adjacent_operators_witness :
  adjacentOperators (display (appendValue ["*"%char] {| display := "12+"; history := [] |}))
  = false.
Proof.
  apply (appendValue_no_adjacent_operators "*" {| display := "12+"; history := [] |}).
  reflexivity.
Defined.

Lemma digit_end_not_Error (d : str) (c : ascii) :
  isDigit c = true -> Str.eqb (d ++ [c]) "Error" = false.
Proof.
  intro H. apply eqb_neq. intro E.
  change (String.list_ascii_of_string "Error") with (("Erro" : str) ++ ["r"%char]) in E.
  apply app_inj_tail in E as [_ ->]. discriminate.
Qed.

(** X7. On a display that shows no sentinel, Backspace undoes a digit key:
    the state is the one before the digit was typed. *)
Theorem deleteLast_undoes_digit (d : ascii) (st : State) :
  isDigit d = true ->
  isSentinel (display st) = false ->
  deleteLast (appendValue [d] st) = st.
Proof.
  intros Hd Hs.
  assert (E : appendValue [d] st = setDisplay (display st ++ [d]) st).
  { unfold appendValue. rewrite Hs, digit_key_not_operator, digit_key_not_dot by exact Hd.
    reflexivity. }
  rewrite E. unfold deleteLast. cbn [display setDisplay].
  rewrite (digit_end_not_Error _ _ Hd). unfold sliceInit. rewrite removelast_last.
  now destruct st.
Qed.

Lemma deleteLast_undoes_digit_witness :
  deleteLast (appendValue ["7"%char] {| display := "12+"; history := [] |})
  = {| display := "12+"; history := [] |}.
Proof.
  apply (deleteLast_undoes_digit "7" {| display := "12+"; history := [] |}); reflexivity.
Defined.

(** X8. An operator key on a display that ends with an operator replaces
    that operator; nothing else of the display changes.  So [-] followed by
    [+] leaves a display that begins with [+]. *)
Theorem appendValue_replaces_trailing_operator (a : str) (z c : ascii) (st : State) :
  display st = a ++ [z] ->
  isOperator z = true ->
  isOperator c = true ->
  appendValue [c] st = setDisplay (a ++ [c]) st.
Proof.
  intros E Hz Hc.
  assert (Hs : isSentinel (display st) = false).
  { destruct (isSentinel (display st)) eqn:S; [|reflexivity].
    apply sentinel_not_operator_end in S. rewrite E, endsWithOperator_snoc in S. congruence. }
  unfold appendValue. rewrite Hs, includes_operators, Hc, lastChar_operator, E.
  assert (N : Str.eqb (a ++ [z]) "" = false) by (apply eqb_neq; now destruct a).
  rewrite N. cbn [andb].
  destruct (a ++ [z]) as [|x t] eqn:F; [now destruct a|].
  rewrite <- F, endsWithOperator_snoc, Hz. unfold sliceInit. now rewrite removelast_last.
Qed.

Lemma appendValue_replaces_trailing_operator_witness :
  appendValue ["+"%char] {| display := "-"; history := [] |}
  = setDisplay ([] ++ ["+"%char]) {| display := "-"; history := [] |}.
Proof.
  apply (appendValue_replaces_trailing_operator [] "-" "+" {| display := "-"; history := [] |});
    reflexivity.
Defined.

(** X9. On an empty display, or one that shows a sentinel, an operator key
    is refused unless it is the minus sign, which becomes the whole display. *)
Theorem appendValue_first_operator (c : ascii) (st : State) :
  display st = [] \/ isSentinel (display st) = true ->
  isOperator c = true ->
  display (appendValue [c] st) = if (c =? "-")%char then ["-"%char] else [].
Proof.
  intros H Hc. unfold appendValue.
  set (st0 := if isSentinel (display st) then setDisplay "" st else st).
  assert (E : display st0 = []).
  { unfold st0. rewrite appendValue_start. destruct H as [H | H]; rewrite H; [|reflexivity].
    reflexivity. }
  clearbody st0. rewrite includes_operators, Hc, eqb_minus, lastChar_operator, E.
  destruct (Ascii.eqb_spec c "-") as [-> | N]; [reflexivity | cbn; exact E].
Qed.

Lemma appendValue_first_operator_witness :
  display (appendValue ["*"%char] {| display := "NaN"; history := [] |})
  = if ("*" =? "-")%char then ["-"%char] else [].
Proof.
  apply (appendValue_first_operator "*" {| display := "NaN"; history := [] |});
    [right|]; reflexivity.
Defined.

(** *** Numeric segments *)

Lemma split_nonempty (d : str) : split d <> [].
Proof.
  induction d as [|x d IH]; cbn [split]; [discriminate|].
  destruct (isSeparator x); [discriminate|]. destruct (split d); discriminate.
Qed.

(** A character at the end of a text opens a new segment if it is a
    separator and extends the last segment otherwise. *)
Lemma split_snoc (d : str) (c : ascii) :
  split (d ++ [c])
  = if isSeparator c then split d ++ [[]]
    else removelast (split d) ++ [last (split d) [] ++ [c]].
Proof.
  induction d as [|x d IH].
  - cbn. destruct (isSeparator c); reflexivity.
  - cbn [app split]. rewrite IH. pose proof (split_nonempty d) as N.
    destruct (split d) as [|tok rest]; [contradiction|].
    destruct (isSeparator x), (isSeparator c); try reflexivity.
    destruct rest; reflexivity.
Qed.

Lemma dots_snoc (l : str) (c : ascii) :
  dots (l ++ [c]) = (dots l + (if (c =? ".")%char then 1 else 0))%nat.
Proof.
  unfold dots. rewrite filter_app, length_app. cbn [filter].
  destruct (c =? ".")%char; reflexivity.
Qed.

Lemma singleDots_last (d : str) :
  singleDots d
  = forallb (fun tok => (dots tok <=? 1)%nat) (removelast (split d))
    && (dots (last (split d) []) <=? 1)%nat.
Proof.
  unfold singleDots.
  rewrite (app_removelast_last [] (split_nonempty d)) at 1.
  rewrite forallb_app. cbn [forallb]. now rewrite andb_true_r.
Qed.

Lemma singleDots_separator (d : str) (c : ascii) :
  isSeparator c = true -> singleDots (d ++ [c]) = singleDots d.
Proof.
  intro H. unfold singleDots. rewrite split_snoc, H, forallb_app. cbn.
  now rewrite andb_true_r.
Qed.

Lemma last_split_snoc (d : str) (c : ascii) :
  isSeparator c = false -> last (split (d ++ [c])) [] = last (split d) [] ++ [c].
Proof. intro H. now rewrite split_snoc, H, last_last. Qed.

Lemma singleDots_extend (d : str) (c : ascii) :
  isSeparator c = false ->
  singleDots (d ++ [c])
  = forallb (fun tok => (dots tok <=? 1)%nat) (removelast (split d))
    && (dots (last (split d) [] ++ [c]) <=? 1)%nat.
Proof.
  intro H. rewrite singleDots_last, split_snoc, H, removelast_last, last_last.
  reflexivity.
Qed.

Lemma singleDots_plain (d : str) (c : ascii) :
  isSeparator c = false -> (c =? ".")%char = false ->
  singleDots (d ++ [c]) = singleDots d.
Proof.
  intros H N. rewrite singleDots_extend, dots_snoc, N, Nat.add_0_r by exact H.
  symmetry. apply singleDots_last.
Qed.

Lemma singleDots_dot (d : str) :
  singleDots d = true -> dots (last (split d) []) = 0%nat ->
  singleDots (d ++ ["."%char]) = true.
Proof.
  intros H Z. rewrite singleDots_extend, dots_snoc, Z by reflexivity.
  rewrite singleDots_last in H. apply andb_true_iff in H as [H _]. now rewrite H.
Qed.

Lemma includes_dot (tok : str) : includes tok "." = false -> dots tok = 0%nat.
Proof.
  induction tok as [|x t IH]; [reflexivity|]. cbn [includes]. intro H.
  apply orb_false_iff in H as [H1 H2].
  change (startsWith "." (x :: t)) with (("." =? x)%char && true) in H1.
  rewrite andb_true_r in H1.
  unfold dots in *. cbn [filter]. rewrite (Ascii.eqb_sym x "."), H1. exact (IH H2).
Qed.

Lemma operator_is_separator (c : ascii) : isOperator c = true -> isSeparator c = true.
Proof. unfold isSeparator. now intros ->. Qed.

(** X10. A one-character key never gives a numeric segment a second dot: if
    every segment of the display has at most one dot, so has every segment
    after [appendValue]. *)
Theorem appendValue_single_dots (c : ascii) (st : State) :
  singleDots (display st) = true ->
  singleDots (display (appendValue [c] st)) = true.
Proof.
  intro H. unfold appendValue.
  set (st0 := if isSentinel (display st) then setDisplay "" st else st).
  assert (H0 : singleDots (display st0) = true).
  { unfold st0. rewrite appendValue_start. now destruct (isSentinel (display st)). }
  clearbody st0. clear H st.
  rewrite includes_operators, lastChar_operator, eqb_dot.
  destruct (isOperator c) eqn:Hc.
  - pose proof (operator_is_separator c Hc) as Sc.
    destruct (Str.eqb (display st0) "" && negb (Str.eqb [c] "-")); [exact H0|].
    destruct (display st0) as [|x t] eqn:E.
    + cbn [display setDisplay sliceInit removelast].
      now rewrite (singleDots_separator [] c Sc).
    + destruct (endsWithOperator (x :: t)) eqn:F.
      * cbn [display setDisplay]. unfold sliceInit.
        destruct (exists_last (l := x :: t) ltac:(discriminate)) as [a [z Ez]].
        rewrite Ez in *. rewrite removelast_last. rewrite endsWithOperator_snoc in F.
        rewrite singleDots_separator in H0 by now apply operator_is_separator.
        now rewrite singleDots_separator.
      * rewrite (operator_not_dot c Hc). cbn [display setDisplay].
        now rewrite singleDots_separator.
  - destruct (c =? ".")%char eqn:Ed.
    + apply Ascii.eqb_eq in Ed. subst c.
      destruct (includes (last (split (display st0)) []) ".") eqn:I; [exact H0|].
      apply includes_dot in I.
      destruct (Str.eqb (last (split (display st0)) []) ""); cbn [display setDisplay].
      * change (String.list_ascii_of_string "0") with ["0"%char].
        apply singleDots_dot.
        -- now rewrite singleDots_plain.
        -- rewrite last_split_snoc, dots_snoc, I by reflexivity. reflexivity.
      * now apply singleDots_dot.
    + cbn [display setDisplay]. destruct (isSeparator c) eqn:Sc.
      * now rewrite singleDots_separator.
      * now rewrite singleDots_plain.
Qed.

Lemma appendValue_single_dots_witness :
  singleDots (display (appendValue ["."%char] {| display := "1.5+2"; history := [] |})) = true.
Proof.
  apply (appendValue_single_dots "." {| display := "1.5+2"; history := [] |}). reflexivity.
Defined.

(** ** The history, lines 126-153 and 241-259 *)

(** X11. [addToHistory] makes a history of fewer than 200 entries one longer
    and leaves the length of any other as it is: a history that is already
    over the cap is not brought back under it. *)
Theorem addToHistory_length (now expression : str) (result : value) (st : State) :
  length (history (addToHistory now expression result st))
  = if (length (history st) <? 200)%nat then S (length (history st))
    else length (history st).
Proof.
  unfold addToHistory. cbn [history setHistory].
  set (e := {| expr := expression; result := ToString result; time := now |}).
  change (length (e :: history st)) with (S (length (history st))).
  destruct (200 <? S (length (history st)))%nat eqn:E.
  - apply Nat.ltb_lt in E.
    rewrite removelast_firstn_len, length_firstn. cbn [length Nat.pred].
    destruct (length (history st) <? 200)%nat eqn:F; [apply Nat.ltb_lt in F; lia | lia].
  - apply Nat.ltb_ge in E. cbn [length].
    destruct (length (history st) <? 200)%nat eqn:F; [reflexivity | apply Nat.ltb_ge in F; lia].
Qed.

Lemma appendValue_history (value : str) (st : State) :
  history (appendValue value st) = history st.
Proof.
  unfold appendValue.
  destruct (isSentinel (display st)), (includes "+-*/" value); cbn [display setDisplay];
    repeat match goal with
           | |- context [if ?b then _ else _] => destruct b
           end; reflexivity.
Qed.

Lemma deleteLast_history (st : State) : history (deleteLast st) = history st.
Proof. unfold deleteLast. destruct (Str.eqb (display st) "Error"); reflexivity. Qed.

(** X12. Whatever the host answers, [calculateResult] leaves the history as
    it is or puts one entry in front of it, keeping the first 200: the entry
    holds the trimmed display as expression and the text now on the display
    as result. *)
Theorem calculateResult_history (host : str -> completion) (now : str) (st : State) :
  (length (history st) <= 200)%nat ->
  history (calculateResult host now st) = history st
  \/ history (calculateResult host now st)
     = firstn 200 ({| expr := trim (display st);
                      result := display (calculateResult host now st);
                      time := now |} :: history st).
Proof.
  intro H. unfold calculateResult.
  destruct (Str.eqb (trim (display st)) ""); [now left|].
  destruct (safeEval host (trim (display st))) as [v | e]; [right | now left].
  cbn [display history setDisplay]. now apply addToHistory_history.
Qed.

Lemma calculateResult_history_witness :
  history (calculateResult arithOnly "t" {| display := " 6*7 "; history := [] |}) = []
  \/ history (calculateResult arithOnly "t" {| display := " 6*7 "; history := [] |})
     = firstn 200
         ({| expr := trim (display {| display := " 6*7 "; history := [] |});
             result := display (calculateResult arithOnly "t"
                                  {| display := " 6*7 "; history := [] |});
             time := "t" |} :: []).
Proof.
  apply (calculateResult_history arithOnly "t" {| display := " 6*7 "; history := [] |}).
  cbn. lia.
Defined.

Lemma onKeyDown_capped (host : str -> completion) (now key : str) (st : State) :
  (length (history st) <= 200)%nat ->
  (length (history (onKeyDown host now key st)) <= 200)%nat.
Proof.
  intro H.
  assert (C : (length (history (calculateResult host now st)) <= 200)%nat).
  { unfold calculateResult.
    destruct (Str.eqb (trim (display st)) ""); [exact H|].
    destruct (safeEval host (trim (display st))); [|exact H].
    cbn [history setDisplay]. now apply addToHistory_capped. }
  unfold onKeyDown.
  repeat match goal with
         | |- context [if ?b then _ else _] => destruct b
         end;
    rewrite ?appendValue_history, ?deleteLast_history; trivial.
Qed.

(** X13. No sequence of key presses takes the history over 200 entries, if
    it did not hold more before. *)
Theorem pressAll_capped (host : str -> completion) (events : list (str * str)) (st : State) :
  (length (history st) <= 200)%nat ->
  (length (history (pressAll host events st)) <= 200)%nat.
Proof.
  revert st. induction events as [|ev events IH]; intros st H; [exact H|].
  cbn [pressAll fold_left]. apply IH. now apply onKeyDown_capped.
Qed.

Lemma pressAll_capped_witness :
  (length (history (pressAll arithOnly
                      [("t1" : str, "2" : str); ("t2" : str, "Enter" : str)]
                      {| display := ""; history := [] |})) <= 200)%nat.
Proof.
  apply (pressAll_capped arithOnly [("t1" : str, "2" : str); ("t2" : str, "Enter" : str)]
           {| display := ""; history := [] |}).
  cbn. lia.
Defined.

(** X14. Only the Enter key can change the history. *)
Theorem onKeyDown_history (host : str -> completion) (now key : str) (st : State) :
  key <> "Enter" ->
  history (onKeyDown host now key st) = history st.
Proof.
  intro N. apply eqb_neq in N. unfold onKeyDown. rewrite N.
  repeat match goal with
         | |- context [if ?b then _ else _] => destruct b
         end;
    rewrite ?appendValue_history, ?deleteLast_history; reflexivity.
Qed.

Lemma onKeyDown_history_witness :
  history (onKeyDown arithOnly "t" "Backspace" {| display := "12"; history := [] |}) = [].
Proof.
  apply (onKeyDown_history arithOnly "t" "Backspace" {| display := "12"; history := [] |}).
  discriminate.
Defined.

(** ** Restoring a history entry, lines 191-194 *)

Lemma dropWhile_head (p : ascii -> bool) (s : str) :
  dropWhile p s = [] \/ exists c t, dropWhile p s = c :: t /\ p c = false.
Proof.
  induction s as [|x s IH]; [now left|]. cbn [dropWhile].
  destruct (p x) eqn:E; [exact IH | right; now exists x, s].
Qed.

Lemma dropWhile_idempotent (p : ascii -> bool) (s : str) :
  dropWhile p (dropWhile p s) = dropWhile p s.
Proof.
  destruct (dropWhile_head p s) as [E | [c [t [E H]]]]; rewrite E; [reflexivity|].
  cbn [dropWhile]. now rewrite H.
Qed.

Lemma trim_idempotent (s : str) : trim (trim s) = trim s.
Proof.
  unfold trim.
  assert (A : trimStart (trimEnd (trimStart s)) = trimEnd (trimStart s)).
  { unfold trimStart at 2 3.
    destruct (dropWhile_head isSpace s) as [E | [c [t [E H]]]]; rewrite E; [reflexivity|].
    change (c :: t) with (([] ++ [c]) ++ t). rewrite trimEnd_app by exact H.
    cbn [app]. unfold trimStart. cbn [dropWhile]. now rewrite H. }
  rewrite A. unfold trimEnd. now rewrite rev_involutive, dropWhile_idempotent.
Qed.

(** X15. After a successful evaluation, clicking the new history row and
    evaluating again shows the same result and records the same expression
    and result once more. *)
Theorem restoreEntry_replays
        (host : str -> completion) (now now' : str) (st : State) (v : value) (item : Entry) :
  Str.eqb (trim (display st)) "" = false ->
  safeEval host (trim (display st)) = Return v ->
  hd_error (history (calculateResult host now st)) = Some item ->
  let st1 := calculateResult host now st in
  let st2 := calculateResult host now' (restoreEntry item st1) in
  display st2 = display st1
  /\ display st2 = result item
  /\ hd_error (history st2)
     = Some {| expr := expr item; result := result item; time := now' |}.
Proof.
  intros Hne He Hitem st1 st2.
  assert (E1 : st1 = setDisplay (ToString (rounded v))
                       (addToHistory now (trim (display st)) (rounded v) st)).
  { unfold st1, calculateResult. now rewrite Hne, He. }
  assert (Ei : item = {| expr := trim (display st); result := ToString (rounded v);
                         time := now |}).
  { fold st1 in Hitem. rewrite E1 in Hitem. cbn [history setDisplay] in Hitem.
    rewrite addToHistory_newest_first in Hitem. now injection Hitem. }
  assert (E2 : st2 = setDisplay (ToString (rounded v))
                       (addToHistory now' (trim (display st)) (rounded v)
                          (restoreEntry item st1))).
  { unfold st2, calculateResult. rewrite Ei. cbn [restoreEntry display setDisplay expr].
    now rewrite trim_idempotent, Hne, He. }
  rewrite E2, E1, Ei. cbn [display setDisplay history result expr].
  split; [reflexivity|]. split; [reflexivity|]. apply addToHistory_newest_first.
Qed.

Lemma restoreEntry_replays_witness :
  display (calculateResult arithOnly "t2"
             (restoreEntry {| expr := "6*7"; result := "42"; time := "t1" |}
                (calculateResult arithOnly "t1" {| display := " 6*7 "; history := [] |})))
  = display (calculateResult arithOnly "t1" {| display := " 6*7 "; history := [] |}).
Proof.
  refine (proj1 (restoreEntry_replays arithOnly "t1" "t2"
                   {| display := " 6*7 "; history := [] |} (VNumber (ofZ 42))
                   {| expr := "6*7"; result := "42"; time := "t1" |} _ _ _)).
  - reflexivity.
  - vm_compute. reflexivity.
  - vm_compute. reflexivity.
Defined.

(** ** The theme, lines 30-47 and 222-238 *)

Import Theme.

Lemma contains_add (c d : str) (l : classList) :
  contains (add d l) c = Str.eqb c d || contains l c.
Proof.
  unfold add. destruct (contains l d) eqn:E.
  - destruct (Str.eqb c d) eqn:F; [|reflexivity].
    apply eqb_eq in F. subst. now rewrite E.
  - unfold contains. rewrite existsb_app. cbn [existsb].
    rewrite orb_false_r. apply orb_comm.
Qed.

Lemma contains_remove (c d : str) (l : classList) :
  contains (remove d l) c = negb (Str.eqb c d) && contains l c.
Proof.
  induction l as [|x l IH]; [now rewrite andb_false_r|].
  unfold remove, contains in *. cbn [filter existsb].
  destruct (Str.eqb x d) eqn:E; cbn [negb existsb]; rewrite IH.
  - apply eqb_eq in E. subst x. destruct (Str.eqb c d); reflexivity.
  - destruct (Str.eqb c x) eqn:F; [|reflexivity].
    apply eqb_eq in F. subst x. now rewrite E.
Qed.

Lemma remove_absent (c : str) (l : classList) : contains l c = false -> remove c l = l.
Proof.
  induction l as [|x l IH]; [reflexivity|]. unfold contains, remove in *.
  cbn [existsb filter]. intro H. apply orb_false_iff in H as [H1 H2].
  assert (E : Str.eqb x c = false).
  { apply eqb_neq. intro. subst. now rewrite eqb_refl in H1. }
  rewrite E. cbn [negb]. f_equal. exact (IH H2).
Qed.

Lemma add_present (c : str) (l : classList) : contains l c = true -> add c l = l.
Proof. unfold add. now intros ->. Qed.

Lemma showDark_idempotent (doc : Document) : showDark (showDark doc) = showDark doc.
Proof.
  unfold showDark. cbn [body themeIcon localStorage]. f_equal.
  - rewrite (remove_absent "light-theme") by (now rewrite contains_add, contains_remove).
    apply add_present. now rewrite contains_add.
  - rewrite (remove_absent "fa-moon") by (now rewrite contains_add, contains_remove).
    apply add_present. now rewrite contains_add.
Qed.

Lemma showLight_idempotent (doc : Document) : showLight (showLight doc) = showLight doc.
Proof.
  unfold showLight. cbn [body themeIcon localStorage]. f_equal.
  - rewrite (remove_absent "dark-theme") by (now rewrite contains_add, contains_remove).
    apply add_present. now rewrite contains_add.
  - rewrite (remove_absent "fa-sun") by (now rewrite contains_add, contains_remove).
    apply add_present. now rewrite contains_add.
Qed.

Lemma toggleTheme_outcome_body (doc : Document) :
  contains (body (toggleTheme doc)) "light-theme"
  = negb (contains (body doc) "light-theme").
Proof.
  unfold toggleTheme. destruct (contains (body doc) "light-theme");
    cbn [saveTheme showDark showLight body]; now rewrite contains_add, ?contains_remove.
Qed.

(** X16. Loading the theme after a toggle changes nothing: what the toggle
    saved is the theme it shows, so a reload comes back to the same page. *)
Theorem loadTheme_after_toggleTheme (doc : Document) :
  loadTheme (toggleTheme doc) = toggleTheme doc.
Proof.
  unfold toggleTheme. destruct (contains (body doc) "light-theme").
  - change (loadTheme (saveTheme true (showDark doc)))
      with (saveTheme true (showDark (showDark doc))).
    now rewrite showDark_idempotent.
  - change (loadTheme (saveTheme false (showLight doc)))
      with (saveTheme false (showLight (showLight doc))).
    now rewrite showLight_idempotent.
Qed.

(** X17. From any page, [toggleTheme] ends with exactly one of the two theme
    classes on the body, dark if and only if the body had the light class,
    with the matching icon and the matching stored theme; the other classes
    of the body and the other items of the storage stay as they were. *)
Theorem toggleTheme_outcome (doc : Document) :
  let dark := contains (body doc) "light-theme" in
  let doc' := toggleTheme doc in
  contains (body doc') "dark-theme" = dark
  /\ contains (body doc') "light-theme" = negb dark
  /\ contains (themeIcon doc') "fa-sun" = dark
  /\ contains (themeIcon doc') "fa-moon" = negb dark
  /\ getItem THEME_KEY (localStorage doc') = Some (if dark then "dark" : str else "light" : str)
  /\ getItem STORAGE_KEY (localStorage doc') = getItem STORAGE_KEY (localStorage doc)
  /\ forall c : str, c <> "light-theme" -> c <> "dark-theme" ->
                     contains (body doc') c = contains (body doc) c.
Proof.
  intros dark doc'. unfold doc', toggleTheme. fold dark.
  destruct dark; cbn [saveTheme showDark showLight body themeIcon localStorage];
    rewrite !contains_add, !contains_remove;
    (repeat split; try reflexivity);
    intros c N1 N2; apply eqb_neq in N1, N2;
    rewrite contains_add, contains_remove, N1, N2; reflexivity.
Qed.

(** X18. Loading after saving shows the saved theme, whatever the page
    showed: the dark class and the sun icon for a saved dark theme, the
    light class and the moon icon otherwise. *)
Theorem loadTheme_after_saveTheme (isDark : bool) (doc : Document) :
  let doc' := loadTheme (saveTheme isDark doc) in
  contains (body doc') "dark-theme" = isDark
  /\ contains (body doc') "light-theme" = negb isDark
  /\ contains (themeIcon doc') "fa-sun" = isDark
  /\ contains (themeIcon doc') "fa-moon" = negb isDark.
Proof.
  destruct isDark.
  - change (loadTheme (saveTheme true doc)) with (saveTheme true (showDark doc)).
    cbn [saveTheme showDark body themeIcon].
    rewrite !contains_add, !contains_remove. now repeat split.
  - change (loadTheme (saveTheme false doc)) with (saveTheme false (showLight doc)).
    cbn [saveTheme showLight body themeIcon].
    rewrite !contains_add, !contains_remove. now repeat split.
Qed.

(** X19. Without a stored theme, or with one that is not "dark", loading
    gives the light theme. *)
Theorem loadTheme_default (doc : Document) :
  getItem THEME_KEY (localStorage doc) <> Some ("dark" : str) ->
  loadTheme doc = showLight doc
  /\ contains (body (loadTheme doc)) "light-theme" = true
  /\ contains (body (loadTheme doc)) "dark-theme" = false.
Proof.
  intro H.
  assert (E : loadTheme doc = showLight doc).
  { unfold loadTheme. destruct (getItem THEME_KEY (localStorage doc)) as [v|]; [|reflexivity].
    destruct (Str.eqb v "dark") eqn:F; [|reflexivity].
    apply eqb_eq in F. subst. contradiction. }
  rewrite E. cbn [showLight body]. rewrite !contains_add, !contains_remove. now repeat split.
Qed.

Lemma loadTheme_default_witness :
  loadTheme {| body := []; themeIcon := []; localStorage := fun _ => None |}
  = showLight {| body := []; themeIcon := []; localStorage := fun _ => None |}.
Proof.
  apply (loadTheme_default {| body := []; themeIcon := []; localStorage := fun _ => None |}).
  discriminate.
Defined.

(** X20. On a page that shows one theme (one of the two classes on the
    body, the moon icon with the light class and the sun icon with the dark
    one), two toggles bring every class of the body and of the icon back. *)
Theorem toggleTheme_twice (doc : Document) (c : str) :
  contains (body doc) "dark-theme" = negb (contains (body doc) "light-theme") ->
  contains (themeIcon doc) "fa-moon" = contains (body doc) "light-theme" ->
  contains (themeIcon doc) "fa-sun" = contains (body doc) "dark-theme" ->
  contains (body (toggleTheme (toggleTheme doc))) c = contains (body doc) c
  /\ contains (themeIcon (toggleTheme (toggleTheme doc))) c = contains (themeIcon doc) c.
Proof.
  intros Hb Hm Hs.
  assert (T : forall d, contains (body (toggleTheme d)) "light-theme"
                        = negb (contains (body d) "light-theme")).
  { intro d. apply (toggleTheme_outcome_body d). }
  assert (E : toggleTheme (toggleTheme doc)
              = if contains (body doc) "light-theme"
                then saveTheme false (showLight (saveTheme true (showDark doc)))
                else saveTheme true (showDark (saveTheme false (showLight doc)))).
  { unfold toggleTheme at 1. rewrite T. unfold toggleTheme.
    destruct (contains (body doc) "light-theme"); reflexivity. }
  rewrite E. clear E T.
  destruct (contains (body doc) "light-theme") eqn:L;
    cbn [negb saveTheme showDark showLight body themeIcon];
    repeat (rewrite contains_add || rewrite contains_remove);
    cbn [negb] in Hb; rewrite Hb in Hs.
  - split.
    + destruct (Str.eqb c "light-theme") eqn:E1; [apply eqb_eq in E1; subst; now rewrite L|].
      destruct (Str.eqb c "dark-theme") eqn:E2; [apply eqb_eq in E2; subst; now rewrite Hb|].
      reflexivity.
    + destruct (Str.eqb c "fa-moon") eqn:E1; [apply eqb_eq in E1; subst; now rewrite Hm|].
      destruct (Str.eqb c "fa-sun") eqn:E2; [apply eqb_eq in E2; subst; now rewrite Hs|].
      reflexivity.
  - split.
    + destruct (Str.eqb c "dark-theme") eqn:E1; [apply eqb_eq in E1; subst; now rewrite Hb|].
      destruct (Str.eqb c "light-theme") eqn:E2; [apply eqb_eq in E2; subst; now rewrite L|].
      reflexivity.
    + destruct (Str.eqb c "fa-sun") eqn:E1; [apply eqb_eq in E1; subst; now rewrite Hs|].
      destruct (Str.eqb c "fa-moon") eqn:E2; [apply eqb_eq in E2; subst; now rewrite Hm|].
      reflexivity.
Qed.

Lemma toggleTheme_twice_witness :
  contains (body (toggleTheme (toggleTheme
      {| body := ["page" : str; "light-theme" : str];
         themeIcon := ["fas" : str; "fa-moon" : str];
         localStorage := fun _ => None |}))) "light-theme"
  = contains (body
      {| body := ["page" : str; "light-theme" : str];
         themeIcon := ["fas" : str; "fa-moon" : str];
         localStorage := fun _ => None |}) "light-theme".
Proof.
  apply (toggleTheme_twice
           {| body := ["page" : str; "light-theme" : str];
              themeIcon := ["fas" : str; "fa-moon" : str];
              localStorage := fun _ => None |} "light-theme"); reflexivity.
Defined.

(** ** The dot key, lines 101-107 *)

Lemma sentinel_not_separator_end (a : str) (z : ascii) :
  isSeparator z = true -> isSentinel (a ++ [z]) = false.
Proof.
  intro H. destruct (isSentinel (a ++ [z])) eqn:S; [|reflexivity]. exfalso.
  unfold isSentinel in S.
  assert (F : forall (w : str) (y : ascii), a ++ [z] = w ++ [y] -> isSeparator y = false -> False).
  { intros w y E N. apply app_inj_tail in E as [_ ->]. congruence. }
  apply orb_true_iff in S as [S | S]; [apply orb_true_iff in S as [S | S]|];
    apply eqb_eq in S.
  - exact (F "Erro" "r"%char S eq_refl).
  - exact (F "Infinit" "y"%char S eq_refl).
  - exact (F "Na" "N"%char S eq_refl).
Qed.

(** X21. The dot key on a display that is empty, shows a sentinel, or ends
    with an operator or a percent sign writes "0." : the display becomes the
    text it held (none for a sentinel) followed by "0.". *)
Theorem appendValue_leading_dot (st : State) :
  display st = [] \/ isSentinel (display st) = true
  \/ (exists a z, display st = a ++ [z] /\ isSeparator z = true) ->
  display (appendValue "." st)
  = (if isSentinel (display st) then [] else display st) ++ "0.".
Proof.
  intro H. unfold appendValue.
  set (st0 := if isSentinel (display st) then setDisplay "" st else st).
  assert (E : display st0 = if isSentinel (display st) then [] else display st)
    by apply appendValue_start.
  assert (L : last (split (display st0)) [] = []).
  { rewrite E. destruct H as [H | [H | [a [z [H Hz]]]]].
    - rewrite H. reflexivity.
    - rewrite H. reflexivity.
    - rewrite H, (sentinel_not_separator_end a z Hz), split_snoc, Hz. apply last_last. }
  transitivity (display st0 ++ "0."); [|now rewrite E].
  clear E. clearbody st0.
  change (includes "+-*/" ".") with false. change (Str.eqb "." ".") with true.
  cbn iota. rewrite L. change (includes [] ".") with false. change (Str.eqb [] "") with true.
  cbn [display setDisplay]. now rewrite <- app_assoc.
Qed.

Lemma appendValue_leading_dot_witness :
  display (appendValue "." {| display := "12+"; history := [] |})
  = (if isSentinel (display {| display := "12+"; history := [] |}) then []
     else display {| display := "12+"; history := [] |}) ++ "0.".
Proof.
  apply (appendValue_leading_dot {| display := "12+"; history := [] |}).
  right. right. exists ("12" : str), "+"%char. split; reflexivity.
Defined.

(** ** Evaluation of a blank display, lines 126-128 *)

Lemma dropWhile_all (p : ascii -> bool) (s : str) :
  forallb p s = true -> dropWhile p s = [].
Proof.
  induction s as [|c t IH]; [reflexivity|]. cbn [forallb dropWhile]. intro H.
  apply andb_true_iff in H as [H1 H2]. rewrite H1. exact (IH H2).
Qed.

(** X22. On a display that holds white space only, or nothing, evaluation
    does nothing: the host is not run, the display and the history stay. *)
Theorem calculateResult_blank (host : str -> completion) (now : str) (st : State) :
  forallb isSpace (display st) = true ->
  calculateResult host now st = st.
Proof.
  intro H. unfold calculateResult, trim, trimStart. now rewrite (dropWhile_all _ _ H).
Qed.

Lemma calculateResult_blank_witness :
  calculateResult arithOnly "t" {| display := "   "; history := [] |}
  = {| display := "   "; history := [] |}.
Proof.
  apply (calculateResult_blank arithOnly "t" {| display := "   "; history := [] |}).
  reflexivity.
Defined.
